(** * Compiled-graph cache and deployable-module shim of onediff

  A shallow embedding of
  - [src/diffusers/pipelines/stable_diffusion/pipeline_stable_diffusion_img2img_oneflow.py]
    (the pipeline call and the cache of compiled UNet graphs it keeps), and
  - [src/onediff/infer_compiler/with_oneflow_compile.py]
    (the tensor bridge, the graph wrapper and the deployable module),
  followed by the properties of the specification, each one proved or
  refuted on the embedding. *)

From stdpp Require Import gmap strings list sorting.
From Stdlib Require Import ZArith Lia.

Local Open Scope Z_scope.
Set Warnings "-register-all".

(** ** Python exceptions and results *)

(** An exception is identified by the name of its class. *)
Inductive pyexn : Type := PyExn (cls : string).

Definition ValueError : pyexn := PyExn "ValueError".
Definition KeyError : pyexn := PyExn "KeyError".
Definition AttributeError : pyexn := PyExn "AttributeError".

#[global] Instance pyexn_eq_dec : EqDecision pyexn.
Proof. solve_decision. Defined.

(** A Python call either returns a value or raises. *)
Inductive outcome (A : Type) : Type :=
| Returned (a : A)
| Raised (e : pyexn).
Arguments Returned {A} a.
Arguments Raised {A} e.

Definition obind {A B} (m : outcome A) (k : A -> outcome B) : outcome B :=
match m with
| Returned a => k a
| Raised e => Raised e
end.

Notation "'try' x <- m ; k" := (obind m (fun x => k))
(at level 10, x name, m at level 100, k at level 200).

Definition raises {A} (m : outcome A) : bool :=
match m with Returned _ => false | Raised _ => true end.

(** ** Python dictionaries

  A [dict] keeps its keys unique and iterates in insertion order; assigning
  to a key that is present keeps its position, assigning to a new key appends
  it.  The order matters here because [min] returns the first minimal
  element of the iteration. *)
Section PyDict.
Context {K V : Type} `{EqDecision K}.

Definition pydict : Type := list (K * V).

Definition dict_keys (d : pydict) : list K := map fst d.

Definition dict_len (d : pydict) : Z := Z.of_nat (length d).

(** [k in d] and [d[k]] *)
Fixpoint dict_get (k : K) (d : pydict) : option V :=
  match d with
  | [] => None
  | (k', v) :: d' => if decide (k = k') then Some v else dict_get k d'
  end.

Definition dict_contains (k : K) (d : pydict) : bool :=
  match dict_get k d with Some _ => true | None => false end.

Definition dict_getitem (d : pydict) (k : K) : outcome V :=
  match dict_get k d with
  | Some v => Returned v
  | None => Raised KeyError
  end.

(** [d[k] = v] *)
Fixpoint dict_setitem (k : K) (v : V) (d : pydict) : pydict :=
  match d with
  | [] => [(k, v)]
  | (k', v') :: d' =>
      if decide (k = k') then (k', v) :: d' else (k', v') :: dict_setitem k v d'
  end.

(** [del d[k]] *)
Fixpoint dict_remove (k : K) (d : pydict) : pydict :=
  match d with
  | [] => []
  | (k', v') :: d' =>
      if decide (k = k') then d' else (k', v') :: dict_remove k d'
  end.

Definition dict_delitem (k : K) (d : pydict) : outcome pydict :=
  if dict_contains k d then Returned (dict_remove k d) else Raised KeyError.

(** [min(xs, key=f)]: the first element whose key is minimal; [ValueError]
    on an empty iterable; an exception of [f] propagates. *)
Fixpoint min_from (f : K -> outcome Z) (best : K) (fbest : Z) (xs : list K)
  : outcome K :=
  match xs with
  | [] => Returned best
  | x :: xs' =>
      try fx <- f x;
      if decide (fx < fbest) then min_from f x fx xs' else min_from f best fbest xs'
  end.

Definition py_min (f : K -> outcome Z) (xs : list K) : outcome K :=
  match xs with
  | [] => Raised ValueError
  | x :: xs' => try fx <- f x; min_from f x fx xs'
  end.
End PyDict.
Arguments pydict : clear implicits.

(** ** The pipeline's cache of compiled UNet graphs *)
Module Pipeline.

(** The cache key [(height, width)]. *)
Definition shape : Type := Z * Z.

(** A [UNetGraph] object, identified by the rank of its construction: the
    [n]-th graph built by the pipeline has serial [n] (counting from 0). *)
Record UNetGraph : Type := { graph_serial : nat }.

(** The lines the cache block prints. *)
Inductive message : Type :=
  | MsgDeleted (height width : Z)
  | MsgCacheSizeHint
  | MsgCompiling
  | MsgCompilationElapsed.

(** The attributes of [OneFlowStableDiffusionImg2ImgPipeline] that the cache
    reads and writes, with two ghost fields: the number of [UNetGraph]
    objects constructed so far and the lines printed so far. *)
Record pipeline : Type := {
  unet_graphs : pydict shape (Z * UNetGraph);
  unet_graphs_cache_size : Z;
  unet_graphs_lru_cache_time : Z;
  graphs_built : nat;
  stdout : list message
}.

(** [__init__], lines 89-91. *)
Definition init : pipeline :=
  {| unet_graphs := [];
     unet_graphs_cache_size := 1;
     unet_graphs_lru_cache_time := 0;
     graphs_built := 0;
     stdout := [] |}.

Definition with_graphs (d : pydict shape (Z * UNetGraph)) (p : pipeline) : pipeline :=
  {| unet_graphs := d;
     unet_graphs_cache_size := unet_graphs_cache_size p;
     unet_graphs_lru_cache_time := unet_graphs_lru_cache_time p;
     graphs_built := graphs_built p;
     stdout := stdout p |}.

Definition with_time (t : Z) (p : pipeline) : pipeline :=
  {| unet_graphs := unet_graphs p;
     unet_graphs_cache_size := unet_graphs_cache_size p;
     unet_graphs_lru_cache_time := t;
     graphs_built := graphs_built p;
     stdout := stdout p |}.

Definition print (ms : list message) (p : pipeline) : pipeline :=
  {| unet_graphs := unet_graphs p;
     unet_graphs_cache_size := unet_graphs_cache_size p;
     unet_graphs_lru_cache_time := unet_graphs_lru_cache_time p;
     graphs_built := graphs_built p;
     stdout := stdout p ++ ms |}.

(** [set_unet_graphs_cache_size], line 130: a plain assignment. *)
Definition set_unet_graphs_cache_size (cache_size : Z) (p : pipeline)
  : outcome unit * pipeline :=
  (Returned (),
   {| unet_graphs := unet_graphs p;
      unet_graphs_cache_size := cache_size;
      unet_graphs_lru_cache_time := unet_graphs_lru_cache_time p;
      graphs_built := graphs_built p;
      stdout := stdout p |}).

(** [lambda shape: self.unet_graphs[shape][0]], line 281. *)
Definition lru_time (d : pydict shape (Z * UNetGraph)) (s : shape) : outcome Z :=
  try e <- dict_getitem d s; Returned (fst e).

(** One test of the [while] condition of line 280 and, when it holds, one
    run of its body (lines 281-285). *)
Inductive loop_step : Type :=
  | LoopExit
  | LoopRaise (e : pyexn)
  | LoopNext (p : pipeline).

Definition evict_once (p : pipeline) : loop_step :=
  if decide (unet_graphs_cache_size p <= dict_len (unet_graphs p)) then
    match py_min (lru_time (unet_graphs p)) (dict_keys (unet_graphs p)) with
    | Raised e => LoopRaise e
    | Returned shape_to_del =>
        let p1 := print [MsgDeleted (fst shape_to_del) (snd shape_to_del);
                         MsgCacheSizeHint] p in
        match dict_delitem shape_to_del (unet_graphs p1) with
        | Raised e => LoopRaise e
        | Returned d => LoopNext (with_graphs d p1)
        end
    end
  else LoopExit.

(** The [while] loop of lines 280-285; [None] when the fuel runs out. *)
Fixpoint evict_while (fuel : nat) (p : pipeline) : option (outcome unit * pipeline) :=
  match evict_once p with
  | LoopExit => Some (Returned (), p)
  | LoopRaise e => Some (Raised e, p)
  | LoopNext p' =>
      match fuel with
      | O => None
      | S fuel' => evict_while fuel' p'
      end
  end.

(** Lines 286 and 292-294, with the construction of line 289: what the
    block prints and stores when line 287 and the construction, compilation
    and warm-up of lines 288-291 return. *)
Definition compile_and_store (hw : shape) (p : pipeline) : UNetGraph * pipeline :=
  let p1 := print [MsgCompiling] p in
  let unet_graph := {| graph_serial := graphs_built p1 |} in
  let p2 :=
    {| unet_graphs := unet_graphs p1;
       unet_graphs_cache_size := unet_graphs_cache_size p1;
       unet_graphs_lru_cache_time := unet_graphs_lru_cache_time p1;
       graphs_built := S (graphs_built p1);
       stdout := stdout p1 ++ [MsgCompilationElapsed] |} in
  (unet_graph,
   with_graphs
     (dict_setitem hw (unet_graphs_lru_cache_time p2, unet_graph) (unet_graphs p2)) p2).

(** The shapes reported as deleted, in the order printed. *)
Definition deleted (ms : list message) : list shape :=
  omap (fun m => match m with MsgDeleted h w => Some (h, w) | _ => None end) ms.

End Pipeline.

(** ** The tensor bridge, the graph wrapper and the deployable module
    ([with_oneflow_compile.py]) *)

Definition TypeError : pyexn := PyExn "TypeError".
Definition IndexError : pyexn := PyExn "IndexError".

(** The tensors of the two frameworks and the library's conversions between
    them, [flow.utils.tensor.from_torch] and [flow.utils.tensor.to_torch]. *)
Class Tensors : Type := {
  TorchTensor : Type;
  FlowTensor : Type;
  from_torch : TorchTensor -> outcome FlowTensor;
  to_torch : FlowTensor -> outcome TorchTensor
}.

(** Scalars and other plain leaves; a float is kept as its 64-bit pattern. *)
Inductive atom : Type :=
| ANone
| ABool (b : bool)
| AInt (z : Z)
| AFloat (bits : Z)
| AStr (s : string).

#[global] Instance atom_eq_dec : EqDecision atom.
Proof. solve_decision. Defined.

(** The values that travel through the bridge: tensors of either framework,
    plain leaves, and the containers the traversal descends into. *)
Inductive pyvalue `{Tensors} : Type :=
| VTorch (t : TorchTensor)
| VFlow (t : FlowTensor)
| VAtom (a : atom)
| VTuple (xs : list pyvalue)
| VList (xs : list pyvalue)
| VDict (kvs : list (atom * pyvalue)).

Definition VNone `{Tensors} : pyvalue := VAtom ANone.

(** Positional and keyword arguments of a call: [args] and [kwargs]. *)
Definition call_args `{Tensors} : Type := list pyvalue * list (string * pyvalue).

Definition kwargs_to_dict `{Tensors} (kwargs : list (string * pyvalue)) : pyvalue :=
  VDict (map (fun kv => (AStr (fst kv), snd kv)) kwargs).

(** [**mapping]: the keys must be strings. *)
Fixpoint dict_to_kwargs `{Tensors} (kvs : list (atom * pyvalue))
  : outcome (list (string * pyvalue)) :=
  match kvs with
  | [] => Returned []
  | (AStr k, v) :: kvs' => try r <- dict_to_kwargs kvs'; Returned ((k, v) :: r)
  | _ :: _ => Raised TypeError
  end.

(** A call that unpacks [a] as its positional and [k] as its keyword
    arguments. *)
Definition unpack_call `{Tensors} (a k : pyvalue) : outcome call_args :=
  match a, k with
  | VTuple xs, VDict kvs | VList xs, VDict kvs =>
      try kw <- dict_to_kwargs kvs; Returned (xs, kw)
  | _, _ => Raised TypeError
  end.

(** [v[i]] on a sequence. *)
Definition py_index `{Tensors} (v : pyvalue) (i : nat) : outcome pyvalue :=
  match v with
  | VTuple xs | VList xs =>
      match xs !! i with Some x => Returned x | None => Raised IndexError end
  | _ => Raised TypeError
  end.

(** The events of a trace: the calls into the runtime and the calls of
    methods of the wrapped module. *)
Inductive event : Type :=
| EvFromTorch
| EvToTorch
| EvGraphInit (size : Z)
| EvGraphCall
| EvSuperCall (method : string)
| EvFlowLoad (file_path : string)
| EvFlowSave (file_path : string)
| EvRuntimeStateDict
| EvRuntimeStateDictTo
| EvLoadRuntimeStateDict.

#[global] Instance event_eq_dec : EqDecision event.
Proof. solve_decision. Defined.

(** A method of a module class: a function of the arguments acting on the
    runtime's world [W]. *)
Definition method `{Tensors} (W : Type) : Type :=
  call_args -> W -> outcome pyvalue * W.

(** A class of oneflow modules: the entry points and class attributes that
    attribute lookup finds along its method resolution order. *)
Record module_class `{Tensors} (W : Type) : Type := {
  cls_call : option (method W);
  cls_apply_model : option (method W);
  cls_attrs : gmap string pyvalue
}.
Arguments cls_call {_ _} _.
Arguments cls_apply_model {_ _} _.
Arguments cls_attrs {_ _} _.

(** The module [torch2of] returns: its class and its instance attributes. *)
Record ConvertedModule `{Tensors} (W : Type) : Type := {
  md_class : module_class W;
  md_attrs : gmap string pyvalue
}.
Arguments md_class {_ _} _.
Arguments md_attrs {_ _} _.

(** The runtime the code calls into: [nn.Graph], [flow.load], [flow.save],
    and the converter [torch2of] of [convert_torch_to_of.register].  [World]
    is everything they keep: the runtime state of each graph, the files. *)
Class Runtime `{Tensors} : Type := {
  World : Type;
  TorchModule : Type;
  GraphHandle : Type;
  StateDict : Type;
  Device : Type;
  torch2of : TorchModule -> outcome (ConvertedModule World);
  graph_init : Z -> World -> outcome GraphHandle * World;
  graph_call : GraphHandle -> method World -> method World;
  runtime_state_dict : GraphHandle -> World -> outcome StateDict * World;
  runtime_state_dict_to : StateDict -> Device -> World -> outcome StateDict * World;
  load_runtime_state_dict : GraphHandle -> StateDict -> World -> outcome unit * World;
  flow_load : string -> World -> outcome StateDict * World;
  flow_save : StateDict -> string -> World -> outcome unit * World
}.

Section Compile.
Context `{RT : Runtime}.

(** The state threaded through the code: the runtime's world and the trace
    of events so far (oldest first). *)
Record state : Type := { st_world : World; st_trace : list event }.

Definition M (A : Type) : Type := state -> outcome A * state.

Definition ret {A} (a : A) : M A := fun s => (Returned a, s).

Definition raise {A} (e : pyexn) : M A := fun s => (Raised e, s).

Definition bind {A B} (m : M A) (k : A -> M B) : M B :=
  fun s =>
    match m s with
    | (Returned a, s') => k a s'
    | (Raised e, s') => (Raised e, s')
    end.

Definition lift {A} (o : outcome A) : M A := fun s => (o, s).

Definition emit (ev : event) : M unit :=
  fun s => (Returned (), {| st_world := st_world s; st_trace := st_trace s ++ [ev] |}).

(** A call that leaves the code modelled here, into the runtime or into a
    method of the wrapped module: it acts on the world and is recorded in
    the trace. *)
Definition external {A} (ev : event) (op : World -> outcome A * World) : M A :=
  fun s =>
    let '(r, w) := op (st_world s) in
    (r, {| st_world := w; st_trace := st_trace s ++ [ev] |}).
End Compile.

Notation "'do' x <- m ; k" := (bind m (fun x => k))
  (at level 10, x name, m at level 100, k at level 200).
Notation "'do' ' pat <- m ; k" := (bind m (fun x => match x with pat => k end))
  (at level 10, pat pattern, m at level 100, k at level 200).

Section OneflowCompile.
Context `{RT : Runtime}.

(** *** The tensor bridge *)

(** Modelled from the spec: [ArgsTree.map_leaf] of
    [oneflow.framework.args_tree], which the sources only call.  Section 4.1
    of the specification: the traversal descends into sequences and mappings,
    rebuilds each container with the same class, keys and order from the
    mapped items, and applies the function to every other value.  Items are
    mapped from left to right and the first exception propagates. *)
Fixpoint map_leaf (f : pyvalue -> M pyvalue) (v : pyvalue) {struct v} : M pyvalue :=
  match v with
  | VTuple xs =>
      do ys <- (fix go (l : list pyvalue) : M (list pyvalue) :=
                  match l with
                  | [] => ret []
                  | x :: l' => do y <- map_leaf f x; do r <- go l'; ret (y :: r)
                  end) xs;
      ret (VTuple ys)
  | VList xs =>
      do ys <- (fix go (l : list pyvalue) : M (list pyvalue) :=
                  match l with
                  | [] => ret []
                  | x :: l' => do y <- map_leaf f x; do r <- go l'; ret (y :: r)
                  end) xs;
      ret (VList ys)
  | VDict kvs =>
      do ys <- (fix go (l : list (atom * pyvalue)) : M (list (atom * pyvalue)) :=
                  match l with
                  | [] => ret []
                  | (k, x) :: l' => do y <- map_leaf f x; do r <- go l'; ret ((k, y) :: r)
                  end) kvs;
      ret (VDict ys)
  | _ => f v
  end.

(** [input_fn], lines 58-62. *)
Definition input_fn (value : pyvalue) : M pyvalue :=
  match value with
  | VTorch t =>
      do _ <- emit EvFromTorch;
      do t' <- lift (from_torch t);
      ret (VFlow t')
  | _ => ret value
  end.

(** [output_fn], lines 64-68. *)
Definition output_fn (value : pyvalue) : M pyvalue :=
  match value with
  | VFlow t =>
      do _ <- emit EvToTorch;
      do t' <- lift (to_torch t);
      ret (VTorch t')
  | _ => ret value
  end.

(** [process_input], lines 78-83. *)
Definition process_input (args : call_args) : M (pyvalue * pyvalue) :=
  do out <- map_leaf input_fn (VTuple [VTuple (fst args); kwargs_to_dict (snd args)]);
  do mapped_args <- lift (py_index out 0);
  do mapped_kwargs <- lift (py_index out 1);
  ret (mapped_args, mapped_kwargs).

(** [process_output], lines 85-88. *)
Definition process_output (output : pyvalue) : M pyvalue :=
  do out <- map_leaf output_fn (VTuple [output; VNone]);
  lift (py_index out 0).

(** *** The graph wrapper, lines 7-48 *)

(** A [UNetGraph] object: the [nn.Graph] it extends, the dynamic-shape
    budget of the decorator of line 9, and the module it is bound to. *)
Record UNetGraph : Type := {
  ug_handle : GraphHandle;
  ug_size : Z;
  ug_unet : ConvertedModule World
}.

(** [get_unet_graph(size)(unet)]: the constructor of lines 10-32.  The
    graph configuration and the environment variables it sets are settings
    of the runtime and belong to its world. *)
Definition get_unet_graph (size : Z) (unet : ConvertedModule World) : M UNetGraph :=
  do h <- external (EvGraphInit size) (graph_init size);
  ret {| ug_handle := h; ug_size := size; ug_unet := unet |}.

(** [build], lines 34-35: the computation of the bound module, the one of
    the class it had when the graph was constructed ([DeplayableModule]
    defines [__call__] on top of it, not a computation of its own). *)
Definition UNetGraph_build (self : UNetGraph) : method World :=
  fun args w =>
    match cls_call (md_class (ug_unet self)) with
    | Some forward => forward args w
    | None => (Raised TypeError, w)
    end.

(** Calling the graph object: [nn.Graph.__call__] runs [build] compiled. *)
Definition UNetGraph_call (self : UNetGraph) (args : call_args) : M pyvalue :=
  external EvGraphCall (graph_call (ug_handle self) (UNetGraph_build self) args).

(** [warmup_with_load], lines 38-42. *)
Definition UNetGraph_warmup_with_load (self : UNetGraph) (file_path : string)
    (device : option Device) : M unit :=
  do state_dict <- external (EvFlowLoad file_path) (flow_load file_path);
  do state_dict <-
    match device with
    | Some d => external EvRuntimeStateDictTo (runtime_state_dict_to state_dict d)
    | None => ret state_dict
    end;
  external EvLoadRuntimeStateDict (load_runtime_state_dict (ug_handle self) state_dict).

(** [save_graph], lines 44-46. *)
Definition UNetGraph_save_graph (self : UNetGraph) (file_path : string) : M unit :=
  do state_dict <- external EvRuntimeStateDict (runtime_state_dict (ug_handle self));
  external (EvFlowSave file_path) (flow_save state_dict file_path).

(** *** The deployable module, lines 77-121 *)

(** An instance attribute: the graph stored by line 120, or a value the
    converted module already had. *)
Inductive attr : Type :=
| AttrGraph (g : UNetGraph)
| AttrValue (v : pyvalue).

(** The module [oneflow_compile] returns: [of_md] after its class became
    [DeplayableModule].  [dm_super] is the class [DeplayableModule] extends,
    [dm_use_graph] the variable [use_graph] its methods close over. *)
Record DeplayableModule : Type := {
  dm_super : module_class World;
  dm_use_graph : bool;
  dm_attrs : gmap string attr
}.

(** [self._dpl_graph]: the instance attributes, then the class. *)
Definition get_dpl_graph (self : DeplayableModule) : outcome attr :=
  match dm_attrs self !! "_dpl_graph"%string with
  | Some a => Returned a
  | None =>
      match cls_attrs (dm_super self) !! "_dpl_graph"%string with
      | Some v => Returned (AttrValue v)
      | None => Raised AttributeError
      end
  end.

(** [self._dpl_graph(...)]: a plain value is not callable. *)
Definition call_dpl_graph (self : DeplayableModule) (mapped_args mapped_kwargs : pyvalue)
  : M pyvalue :=
  do g <- lift (get_dpl_graph self);
  do a <- lift (unpack_call mapped_args mapped_kwargs);
  match g with
  | AttrGraph g => UNetGraph_call g a
  | AttrValue _ => raise TypeError
  end.

(** [super().name(...)] for a method the base class has. *)
Definition call_super (name : string) (m : method World) (mapped_args mapped_kwargs : pyvalue)
  : M pyvalue :=
  do a <- lift (unpack_call mapped_args mapped_kwargs);
  external (EvSuperCall name) (m a).

(** [apply_model], lines 90-97. *)
Definition apply_model (self : DeplayableModule) (args : call_args) : M pyvalue :=
  match cls_apply_model (dm_super self) with
  | Some super_apply_model =>
      do '(mapped_args, mapped_kwargs) <- process_input args;
      do output <-
        (if dm_use_graph self then call_dpl_graph self mapped_args mapped_kwargs
         else call_super "apply_model" super_apply_model mapped_args mapped_kwargs);
      process_output output
  | None => ret VNone
  end.

(** [__call__], lines 99-106. *)
Definition call (self : DeplayableModule) (args : call_args) : M pyvalue :=
  match cls_call (dm_super self) with
  | Some super_call =>
      do '(mapped_args, mapped_kwargs) <- process_input args;
      do output <-
        (if dm_use_graph self then call_dpl_graph self mapped_args mapped_kwargs
         else call_super "__call__" super_call mapped_args mapped_kwargs);
      process_output output
  | None => ret VNone
  end.

(** [self._dpl_graph.warmup_with_load(file_path, device)], used by
    [load_graph] (lines 108-109) and [warmup_with_load] (lines 112-113). *)
Definition load_graph (self : DeplayableModule) (file_path : string)
    (device : option Device) : M unit :=
  do g <- lift (get_dpl_graph self);
  match g with
  | AttrGraph g => UNetGraph_warmup_with_load g file_path device
  | AttrValue _ => raise AttributeError
  end.

Definition warmup_with_load (self : DeplayableModule) (file_path : string)
    (device : option Device) : M unit :=
  do g <- lift (get_dpl_graph self);
  match g with
  | AttrGraph g => UNetGraph_warmup_with_load g file_path device
  | AttrValue _ => raise AttributeError
  end.

(** [save_graph], lines 115-116. *)
Definition save_graph (self : DeplayableModule) (file_path : string) : M unit :=
  do g <- lift (get_dpl_graph self);
  match g with
  | AttrGraph g => UNetGraph_save_graph g file_path
  | AttrValue _ => raise AttributeError
  end.

(** [oneflow_compile], lines 52-121. *)
Definition oneflow_compile (torch_unet : TorchModule) (use_graph : bool)
    (options : gmap string Z) : M DeplayableModule :=
  do of_md <- lift (torch2of torch_unet);
  do dpl_graph <-
    (if use_graph then
       let size := match options !! "size"%string with Some size => size | None => 9 end in
       do g <- get_unet_graph size of_md; ret (Some g)
     else ret None);
  let attrs : gmap string attr := AttrValue <$> md_attrs of_md in
  ret {| dm_super := md_class of_md;
         dm_use_graph := use_graph;
         dm_attrs :=
           match dpl_graph with
           | Some g => <["_dpl_graph"%string := AttrGraph g]> attrs
           | None => attrs
           end |}.

End OneflowCompile.

(** ** The pipeline call: image size, scheduler configuration, attention
    slicing, and [__call__] up to the cache of compiled graphs *)

Definition NameError : pyexn := PyExn "NameError".

Module Img2Img.
Import Pipeline.

(** [lambda x: x - x % 32], line 31: a side of the image rounded down to a
    multiple of 32. *)
Definition round_to_32 (x : Z) : Z := x - x mod 32.

(** Lines 30-31 of [preprocess]: the size that line 32 passes to
    [image.resize]. *)
Definition resize_argument (size : Z * Z) : Z * Z :=
  let '(w, h) := size in (round_to_32 w, round_to_32 h).

(** The integer entries of [scheduler.config]; [steps_offset] is one of
    them when the scheduler has it. *)
Inductive warning : Type := DeprecationWarning.

(** [__init__], lines 66-78: a [steps_offset] other than 1 is reported and
    replaced by 1 in a new configuration. *)
Definition init_scheduler_config (config : gmap string Z) : gmap string Z * list warning :=
  match config !! "steps_offset"%string with
  | Some steps_offset =>
      if decide (steps_offset <> 1)
      then (<["steps_offset"%string := 1]> config, [DeprecationWarning])
      else (config, [])
  | None => (config, [])
  end.

(** [self.scheduler.config.get("steps_offset", 0)], line 217. *)
Definition steps_offset_of (config : gmap string Z) : Z :=
  default 0 (config !! "steps_offset"%string).

(** The argument of [set_attention_slice]: a string, an integer or [None]. *)
Definition slice_size : Type := option (string + Z).

(** [enable_attention_slicing], lines 106-110: the argument it passes to
    [self.unet.set_attention_slice], given [attention_head_dim]. *)
Definition enable_attention_slicing (attention_head_dim : Z) (slice : slice_size)
  : slice_size :=
  match slice with
  | Some (inl s) =>
      if decide (s = "auto"%string) then Some (inr (attention_head_dim / 2)) else slice
  | _ => slice
  end.

(** [disable_attention_slicing], line 118. *)
Definition disable_attention_slicing (attention_head_dim : Z) : slice_size :=
  enable_attention_slicing attention_head_dim None.

(** [xs[i]] on a sequence, with Python's negative indices. *)
Definition py_getitem {A} (xs : list A) (i : Z) : outcome A :=
  let n := Z.of_nat (length xs) in
  let j := if decide (i < 0) then i + n else i in
  if decide (0 <= j < n) then
    match xs !! Z.to_nat j with
    | Some x => Returned x
    | None => Raised IndexError
    end
  else Raised IndexError.

(** [prompt], lines 192-197. *)
Inductive prompt : Type :=
| PromptStr (s : string)
| PromptList (l : list string)
| PromptOther.

Definition batch_size_of (p : prompt) : outcome nat :=
  match p with
  | PromptStr _ => Returned 1%nat
  | PromptList l => Returned (length l)
  | PromptOther => Raised ValueError
  end.

(** *** What [__call__] is given *)

(** [init_image]: a [PIL.Image.Image] of some size, or a tensor. *)
Inductive image : Type :=
| PILImage (size : Z * Z)
| TensorImage.

(** [strength], a floating-point number, as far as [__call__] looks at it:
    not a number; a number below 0 or above 1; or a number from 0 to 1, and
    then [scaled] is [int(num_inference_steps * strength)], the truncated
    product of line 218, taken as given. *)
Inductive strength_value : Type :=
| StrengthNaN
| StrengthOutside
| StrengthInside (scaled : Z).

(** The arguments of [__call__] that decide what the lines up to 294 do. *)
Record request : Type := {
  req_prompt : prompt;
  req_init_image : image;
  req_strength : strength_value;
  req_num_inference_steps : Z;
  req_compile_unet : bool
}.

(** [self.scheduler]: whether it is an [LMSDiscreteScheduler], and its
    configuration as [__init__] left it. *)
Record scheduler : Type := {
  sch_is_lms : bool;
  sch_config : gmap string Z
}.

(** The calls into PIL, the scheduler, the VAE, the tokenizer, the text
    encoder and oneflow, whose code is not in this repository: each one
    returns or raises.  [lib_set_timesteps n] is
    [self.scheduler.set_timesteps(n)] of line 203, with
    [self.scheduler.timesteps] as its result; [lib_construct_graph] is
    [UNetGraph(self.unet)], whose constructor (lines 41-44) is calls into
    oneflow. *)
Record library : Type := {
  lib_set_timesteps : Z -> outcome (list Z);
  lib_resize : Z * Z -> outcome unit;        (* lines 32-36 *)
  lib_vae_encode : nat -> outcome unit;      (* lines 209-214, for a batch size *)
  lib_add_noise : list Z -> outcome unit;    (* lines 221 or 226, 229-230 *)
  lib_text_embeddings : outcome unit;        (* lines 233-270 *)
  lib_construct_graph : outcome unit;        (* lines 288-289 *)
  lib_compile_graph : outcome unit           (* lines 290-291 *)
}.

(** *** Global names

    [__call__] reads [timer], [height] and [width] (lines 272, 276-278, 292
    and 294) as global names: they are no parameters of [__call__] and no
    line of it assigns them.  Python looks a global name up when the line
    runs, in the namespace of the module and then among the builtins, and
    raises [NameError] when it is in neither. *)
Record globals : Type := {
  g_timer : bool;          (* [timer] is bound to a function that returns the time *)
  g_height : option Z;
  g_width : option Z
}.

(** The namespace of the module as its lines 1-51 leave it: they bind
    [inspect], [warnings], [List], [Optional], [Union], [np], [torch],
    [PIL], [CLIPFeatureExtractor], [CLIPTokenizer], [CLIPTextModel],
    [FrozenDict], [AutoencoderKL], [UNet2DConditionModel],
    [DiffusionPipeline], [DDIMScheduler], [PNDMScheduler],
    [LMSDiscreteScheduler], [StableDiffusionPipelineOutput],
    [StableDiffusionSafetyChecker], [os], [preprocess], [flow], [UNetGraph]
    and the pipeline class.  [timer], [height] and [width] are not among
    them, and they are no builtins. *)
Definition module_globals : globals :=
  {| g_timer := false; g_height := None; g_width := None |}.

Definition load_global {A} (binding : option A) : outcome A :=
  match binding with
  | Some v => Returned v
  | None => Raised NameError
  end.

(** [timer()]. *)
Definition call_timer (g : globals) : outcome unit :=
  if g_timer g then Returned () else Raised NameError.

(** *** [preprocess] and [__call__] *)

(** [preprocess], lines 29-36: the image is resized to [resize_argument]
    of its size and converted. *)
Definition preprocess (lib : library) (size : Z * Z) : outcome unit :=
  lib_resize lib (resize_argument size).

(** Lines 199-200, and what [int(num_inference_steps * strength)] will do
    at line 218: the test [strength < 0 or strength > 1] is false of a
    NaN, which [int] then refuses. *)
Definition check_strength (s : strength_value) : outcome (outcome Z) :=
  match s with
  | StrengthOutside => Raised ValueError
  | StrengthNaN => Returned (Raised ValueError)
  | StrengthInside scaled => Returned (Returned scaled)
  end.

(** Lines 217-226: the timesteps the latents are noised to, one per
    prompt. *)
Definition noise_timesteps (sch : scheduler) (num_inference_steps : Z)
    (batch_size : nat) (scaled : Z) (timesteps : list Z) : outcome (list Z) :=
  let offset := steps_offset_of (sch_config sch) in
  let init_timestep := scaled + offset in
  let init_timestep := Z.min init_timestep num_inference_steps in
  try noise <-
    (if sch_is_lms sch then Returned (num_inference_steps - init_timestep)
     else py_getitem timesteps (- init_timestep));
  Returned (replicate batch_size noise).

(** Lines 192-270 of [__call__]: they neither read nor write the cache.  The
    result is [self.scheduler.timesteps], which the lines that follow read. *)
Definition call_prefix (lib : library) (sch : scheduler) (req : request)
  : outcome (list Z) :=
  try batch_size <- batch_size_of (req_prompt req);
  try scaled <- check_strength (req_strength req);
  try timesteps <- lib_set_timesteps lib (req_num_inference_steps req);
  try _ <-
    match req_init_image req with
    | PILImage size => preprocess lib size
    | TensorImage => Returned ()
    end;
  try _ <- lib_vae_encode lib batch_size;
  try scaled <- scaled;
  try noise <-
    noise_timesteps sch (req_num_inference_steps req) batch_size scaled timesteps;
  try _ <- lib_add_noise lib noise;
  try _ <- lib_text_embeddings lib;
  Returned timesteps.

(** Lines 272-294 of [__call__], in the global namespace [g]: the call of
    [timer] of line 272, which stands before the test of [compile_unet], and
    the cache block.  The result is the binding of [unet_graph] after the
    block ([None] when the block is skipped) and the pipeline as the lines
    leave it, also when they raise; no result when the fuel of the loop
    runs out. *)
Definition cache_block (g : globals) (timesteps : list Z)
    (construct compile : outcome unit) (compile_unet : bool) (p : pipeline)
  : option (outcome (option Pipeline.UNetGraph) * pipeline) :=
  match call_timer g with
  | Raised e => Some (Raised e, p)
  | Returned _ =>
      if compile_unet then
        let p1 := with_time (unet_graphs_lru_cache_time p + 1) p in
        match load_global (g_height g), load_global (g_width g) with
        | Raised e, _ => Some (Raised e, p1)
        | Returned _, Raised e => Some (Raised e, p1)
        | Returned height, Returned width =>
            let hw := (height, width) in
            match dict_get hw (unet_graphs p1) with
            | Some (_, unet_graph) =>
                Some (Returned (Some unet_graph),
                      with_graphs
                        (dict_setitem hw (unet_graphs_lru_cache_time p1, unet_graph)
                           (unet_graphs p1)) p1)
            | None =>
                match evict_while (length (unet_graphs p1)) p1 with
                | None => None
                | Some (Raised e, p2) => Some (Raised e, p2)
                | Some (Returned _, p2) =>
                    let p3 := print [MsgCompiling] p2 in
                    match py_getitem (imap (fun i t => (Z.of_nat i, t)) timesteps) 0,
                          construct with
                    | Raised e, _ => Some (Raised e, p3)
                    | Returned _, Raised e => Some (Raised e, p3)
                    | Returned _, Returned _ =>
                        match compile with
                        | Raised e =>
                            Some (Raised e,
                                  {| unet_graphs := unet_graphs p3;
                                     unet_graphs_cache_size := unet_graphs_cache_size p3;
                                     unet_graphs_lru_cache_time :=
                                       unet_graphs_lru_cache_time p3;
                                     graphs_built := S (graphs_built p3);
                                     stdout := stdout p3 |})
                        | Returned _ =>
                            let '(unet_graph, p4) := compile_and_store hw p2 in
                            Some (Returned (Some unet_graph), p4)
                        end
                    end
                end
            end
        end
      else Some (Returned None, p)
  end.

(** [__call__] up to line 294. *)
Definition pipeline_call (g : globals) (lib : library) (sch : scheduler)
    (req : request) (p : pipeline)
  : option (outcome (option Pipeline.UNetGraph) * pipeline) :=
  match call_prefix lib sch req with
  | Raised e => Some (Raised e, p)
  | Returned timesteps =>
      cache_block g timesteps (lib_construct_graph lib) (lib_compile_graph lib)
        (req_compile_unet req) p
  end.

End Img2Img.

(** ** Notions used to state the properties *)

(** The time and graph stored for a shape. *)
Definition entry_of (p : Pipeline.pipeline) (hw : Pipeline.shape)
  : option (Z * Pipeline.UNetGraph) :=
  dict_get hw (Pipeline.unet_graphs p).

(** A sequence of calls of the pipeline by a caller that goes on after an
    exception: the outcome of each call and the pipeline at the end. *)
Fixpoint run_calls (g : Img2Img.globals) (lib : Img2Img.library)
    (sch : Img2Img.scheduler) (reqs : list Img2Img.request) (p : Pipeline.pipeline)
  : option (list (outcome (option Pipeline.UNetGraph)) * Pipeline.pipeline) :=
  match reqs with
  | [] => Some ([], p)
  | req :: reqs' =>
      match Img2Img.pipeline_call g lib sch req p with
      | None => None
      | Some (r, p1) =>
          match run_calls g lib sch reqs' p1 with
          | None => None
          | Some (rs, p2) => Some (r :: rs, p2)
          end
      end
  end.

(** The states a pipeline object goes through: construction, then calls of
    [set_unet_graphs_cache_size] and of the pipeline itself, in any order
    and with any arguments, scheduler and behaviour of the libraries. *)
Inductive reachable : Pipeline.pipeline -> Prop :=
| reach_init : reachable Pipeline.init
| reach_set_size n p :
    reachable p -> reachable (snd (Pipeline.set_unet_graphs_cache_size n p))
| reach_call lib sch req p r p' :
    reachable p ->
    Img2Img.pipeline_call Img2Img.module_globals lib sch req p = Some (r, p') ->
    reachable p'.

(** The exception a call ends with in the namespace of the module: the one
    of the first line that raises, which is line 272 at the latest. *)
Definition call_exception (lib : Img2Img.library) (sch : Img2Img.scheduler)
    (req : Img2Img.request) : pyexn :=
  match Img2Img.call_prefix lib sch req with
  | Raised e => e
  | Returned _ => NameError
  end.

(** The libraries return at every call. *)
Definition library_returns (lib : Img2Img.library) : Prop :=
  (forall n, exists timesteps, Img2Img.lib_set_timesteps lib n = Returned timesteps) /\
  (forall size, Img2Img.lib_resize lib size = Returned ()) /\
  (forall batch_size, Img2Img.lib_vae_encode lib batch_size = Returned ()) /\
  (forall noise, Img2Img.lib_add_noise lib noise = Returned ()) /\
  Img2Img.lib_text_embeddings lib = Returned ().

(** Libraries that return at every call; the scheduler has the timesteps
    [20 * (n - 1) + 1, ..., 21, 1] for [n] inference steps. *)
Definition ref_library : Img2Img.library :=
  {| Img2Img.lib_set_timesteps := fun n =>
       Returned (rev (map (fun i => 20 * Z.of_nat i + 1) (seq 0 (Z.to_nat n))));
     Img2Img.lib_resize := fun _ => Returned ();
     Img2Img.lib_vae_encode := fun _ => Returned ();
     Img2Img.lib_add_noise := fun _ => Returned ();
     Img2Img.lib_text_embeddings := Returned ();
     Img2Img.lib_construct_graph := Returned ();
     Img2Img.lib_compile_graph := Returned () |}.

(** The same libraries with a resizing that refuses a size with a side 0,
    as [PIL.Image.resize] does. *)
Definition strict_library : Img2Img.library :=
  {| Img2Img.lib_set_timesteps := Img2Img.lib_set_timesteps ref_library;
     Img2Img.lib_resize := fun size =>
       if decide (fst size = 0 \/ snd size = 0) then Raised ValueError else Returned ();
     Img2Img.lib_vae_encode := fun _ => Returned ();
     Img2Img.lib_add_noise := fun _ => Returned ();
     Img2Img.lib_text_embeddings := Returned ();
     Img2Img.lib_construct_graph := Returned ();
     Img2Img.lib_compile_graph := Returned () |}.

(** A scheduler that is no [LMSDiscreteScheduler], with [steps_offset]
    1. *)
Definition ref_scheduler : Img2Img.scheduler :=
  {| Img2Img.sch_is_lms := false;
     Img2Img.sch_config := {["steps_offset"%string := 1]} |}.

(** A call with a prompt, an image of the given size, [strength=0.8] and
    50 inference steps (the defaults), and [compile_unet=True]. *)
Definition ref_request (size : Z * Z) : Img2Img.request :=
  {| Img2Img.req_prompt := Img2Img.PromptStr "a photo";
     Img2Img.req_init_image := Img2Img.PILImage size;
     Img2Img.req_strength := Img2Img.StrengthInside 40;
     Img2Img.req_num_inference_steps := 50;
     Img2Img.req_compile_unet := true |}.

(** [oldest d k]: [k] is a key of [d] and no entry of [d] has an earlier
    time. *)
Definition oldest (d : pydict Pipeline.shape (Z * Pipeline.UNetGraph))
    (k : Pipeline.shape) : Prop :=
  exists t g, dict_get k d = Some (t, g) /\
    forall k' t' g', dict_get k' d = Some (t', g') -> t <= t'.

(** [evicts d ks d']: [d'] is [d] after deleting the keys [ks] one after
    the other, each of them the oldest of what was left. *)
Inductive evicts :
  pydict Pipeline.shape (Z * Pipeline.UNetGraph) -> list Pipeline.shape ->
  pydict Pipeline.shape (Z * Pipeline.UNetGraph) -> Prop :=
| evicts_nil d : evicts d [] d
| evicts_cons d k ks d' :
    oldest d k -> evicts (dict_remove k d) ks d' -> evicts d (k :: ks) d'.

(** The two lines printed for each deleted shape. *)
Definition eviction_messages (ks : list Pipeline.shape) : list Pipeline.message :=
  flat_map (fun k => [Pipeline.MsgDeleted (fst k) (snd k); Pipeline.MsgCacheSizeHint]) ks.

(** A pipeline whose cache holds two shapes under the capacity 2; used to
    run the statements on [set_unet_graphs_cache_size] on a state with
    entries. *)
Definition cache_full_AB : Pipeline.pipeline :=
  {| Pipeline.unet_graphs :=
       [((512, 512), (1, {| Pipeline.graph_serial := 0 |}));
        ((512, 768), (2, {| Pipeline.graph_serial := 1 |}))];
     Pipeline.unet_graphs_cache_size := 2;
     Pipeline.unet_graphs_lru_cache_time := 2;
     Pipeline.graphs_built := 2;
     Pipeline.stdout :=
       [Pipeline.MsgCompiling; Pipeline.MsgCompilationElapsed;
        Pipeline.MsgCompiling; Pipeline.MsgCompilationElapsed] |}.

(** *** Notions for the bridge and the deployable module *)

(** What the specification assumes of the two conversions: a tensor of the
    dynamic framework converts, and converts back to itself. *)
Class TensorLaws `{Tensors} : Prop := {
  from_to_torch : forall t, exists t', from_torch t = Returned t' /\ to_torch t' = Returned t
}.

Section BridgeNotions.
Context `{T : Tensors}.

(** [isinstance(value, torch.Tensor)] and [isinstance(value, flow.Tensor)]. *)
Definition is_torch_tensor (v : pyvalue) : bool :=
  match v with VTorch _ => true | _ => false end.

Definition is_flow_tensor (v : pyvalue) : bool :=
  match v with VFlow _ => true | _ => false end.

(** A structure of dynamic-framework tensors and scalars: no leaf is a
    tensor of the compiled framework. *)
Fixpoint dynamic_only (v : pyvalue) : bool :=
  match v with
  | VFlow _ => false
  | VTorch _ | VAtom _ => true
  | VTuple xs | VList xs =>
      (fix all (l : list pyvalue) : bool :=
         match l with [] => true | x :: l' => dynamic_only x && all l' end) xs
  | VDict kvs =>
      (fix all (l : list (atom * pyvalue)) : bool :=
         match l with [] => true | (_, x) :: l' => dynamic_only x && all l' end) kvs
  end.

(** A structure without any tensor of the dynamic framework. *)
Fixpoint compiled_only (v : pyvalue) : bool :=
  match v with
  | VTorch _ => false
  | VFlow _ | VAtom _ => true
  | VTuple xs | VList xs =>
      (fix all (l : list pyvalue) : bool :=
         match l with [] => true | x :: l' => compiled_only x && all l' end) xs
  | VDict kvs =>
      (fix all (l : list (atom * pyvalue)) : bool :=
         match l with [] => true | (_, x) :: l' => compiled_only x && all l' end) kvs
  end.

(** The structure of a value: its nesting, the class of each container, the
    keys of each mapping and the order of the items, with the leaves
    erased. *)
Inductive skeleton : Type :=
| SLeaf
| STuple (xs : list skeleton)
| SList (xs : list skeleton)
| SDict (kvs : list (atom * skeleton)).

Fixpoint skeleton_of (v : pyvalue) : skeleton :=
  match v with
  | VTorch _ | VFlow _ | VAtom _ => SLeaf
  | VTuple xs => STuple (map skeleton_of xs)
  | VList xs => SList (map skeleton_of xs)
  | VDict kvs =>
      SDict ((fix go (l : list (atom * pyvalue)) : list (atom * skeleton) :=
                match l with [] => [] | (k, x) :: l' => (k, skeleton_of x) :: go l' end) kvs)
  end.

(** Two values agree up to a tolerance on their tensors: the same structure,
    the same plain leaves, and tensors related leaf by leaf. *)
Inductive close_value (close_torch : TorchTensor -> TorchTensor -> Prop)
    (close_flow : FlowTensor -> FlowTensor -> Prop) : pyvalue -> pyvalue -> Prop :=
| close_VTorch t t' :
    close_torch t t' -> close_value close_torch close_flow (VTorch t) (VTorch t')
| close_VFlow t t' :
    close_flow t t' -> close_value close_torch close_flow (VFlow t) (VFlow t')
| close_VAtom a : close_value close_torch close_flow (VAtom a) (VAtom a)
| close_VTuple xs ys :
    Forall2 (close_value close_torch close_flow) xs ys ->
    close_value close_torch close_flow (VTuple xs) (VTuple ys)
| close_VList xs ys :
    Forall2 (close_value close_torch close_flow) xs ys ->
    close_value close_torch close_flow (VList xs) (VList ys)
| close_VDict kvs kvs' :
    Forall2 (fun x y => fst x = fst y /\ close_value close_torch close_flow (snd x) (snd y))
      kvs kvs' ->
    close_value close_torch close_flow (VDict kvs) (VDict kvs').

(** Two calls end alike: both return, with close values, or both raise the
    same exception. *)
Definition close_outcome {A} (R : A -> A -> Prop) (o o' : outcome A) : Prop :=
  match o, o' with
  | Returned a, Returned a' => R a a'
  | Raised e, Raised e' => e = e'
  | _, _ => False
  end.
End BridgeNotions.

(** *** A reference runtime

    A small runtime on which the definitions run: the two frameworks share
    one tensor representation, so the conversions copy nothing; a graph runs
    its [build] function as it is and counts its runs; the runtime state of
    a graph is that count, 0 for a graph that never ran. *)
Record ref_tensor : Type := {
  rt_dtype : string;
  rt_shape : list Z;
  rt_data : list Z
}.

#[global] Instance ref_tensors : Tensors := {|
  TorchTensor := ref_tensor;
  FlowTensor := ref_tensor;
  from_torch := fun t => Returned t;
  to_torch := fun t => Returned t
|}.

Record ref_world : Type := {
  rw_graphs : list nat;
  rw_files : gmap string nat
}.

Definition ref_graph_init (size : Z) (w : ref_world) : outcome nat * ref_world :=
  (Returned (length (rw_graphs w)),
   {| rw_graphs := rw_graphs w ++ [0%nat]; rw_files := rw_files w |}).

Definition ref_graph_call (h : nat) (build : method ref_world) : method ref_world :=
  fun args w =>
    build args {| rw_graphs := alter S h (rw_graphs w); rw_files := rw_files w |}.

Definition ref_runtime_state_dict (h : nat) (w : ref_world) : outcome nat * ref_world :=
  match rw_graphs w !! h with
  | Some n => (Returned n, w)
  | None => (Raised (PyExn "RuntimeError"), w)
  end.

Definition ref_load_runtime_state_dict (h : nat) (sd : nat) (w : ref_world)
  : outcome unit * ref_world :=
  (Returned (), {| rw_graphs := <[h := sd]> (rw_graphs w); rw_files := rw_files w |}).

Definition ref_flow_load (file_path : string) (w : ref_world) : outcome nat * ref_world :=
  match rw_files w !! file_path with
  | Some sd => (Returned sd, w)
  | None => (Raised (PyExn "FileNotFoundError"), w)
  end.

Definition ref_flow_save (sd : nat) (file_path : string) (w : ref_world)
  : outcome unit * ref_world :=
  (Returned (), {| rw_graphs := rw_graphs w; rw_files := <[file_path := sd]> (rw_files w) |}).

#[global] Instance ref_runtime : Runtime := {|
  World := ref_world;
  TorchModule := ConvertedModule ref_world;
  GraphHandle := nat;
  StateDict := nat;
  Device := string;
  torch2of := fun m => Returned m;
  graph_init := ref_graph_init;
  graph_call := ref_graph_call;
  runtime_state_dict := ref_runtime_state_dict;
  runtime_state_dict_to := fun sd _ w => (Returned sd, w);
  load_runtime_state_dict := ref_load_runtime_state_dict;
  flow_load := ref_flow_load;
  flow_save := ref_flow_save
|}.

(** A module of the reference runtime: its [__call__] doubles the data of
    the tensor it gets as first argument; it has no [apply_model]. *)
Definition ref_forward : method ref_world :=
  fun args w =>
    match fst args with
    | VFlow t :: _ =>
        (Returned (VFlow {| rt_dtype := rt_dtype t; rt_shape := rt_shape t;
                            rt_data := map (Z.mul 2) (rt_data t) |}), w)
    | _ => (Raised TypeError, w)
    end.

Definition ref_module : ConvertedModule ref_world :=
  {| md_class := {| cls_call := Some ref_forward; cls_apply_model := None;
                    cls_attrs := ∅ |};
     md_attrs := ∅ |}.

(** In the reference runtime a module is its own conversion. *)
Definition ref_torch_unet : @TorchModule ref_tensors ref_runtime := ref_module.

Definition ref_state : state :=
  {| st_world := {| rw_graphs := []; rw_files := ∅ |}; st_trace := [] |}.

Definition ref_input : ref_tensor :=
  {| rt_dtype := "int64"; rt_shape := [1; 3]; rt_data := [1; 2; 3] |}.

Section MonadNotions.
Context `{RT : Runtime}.

(** [returns m a evs]: from every state, [m] returns [a], leaves the world
    as it is and adds the events [evs] to the trace. *)
Definition returns {A} (m : M A) (a : A) (evs : list event) : Prop :=
  forall st, m st = (Returned a, {| st_world := st_world st; st_trace := st_trace st ++ evs |}).

(** The traversal of the items of a sequence and of a mapping, as
    [map_leaf] runs them. *)
Definition map_items (f : pyvalue -> M pyvalue) : list pyvalue -> M (list pyvalue) :=
  fix go (l : list pyvalue) : M (list pyvalue) :=
    match l with
    | [] => ret []
    | x :: l' => do y <- f x; do r <- go l'; ret (y :: r)
    end.

Definition map_values (f : pyvalue -> M pyvalue)
  : list (atom * pyvalue) -> M (list (atom * pyvalue)) :=
  fix go (l : list (atom * pyvalue)) : M (list (atom * pyvalue)) :=
    match l with
    | [] => ret []
    | (k, x) :: l' => do y <- f x; do r <- go l'; ret ((k, y) :: r)
    end.
End MonadNotions.

(** The tensor [ref_input] as a leaf of either framework. *)
Definition ref_torch_leaf : @pyvalue ref_tensors := VTorch ref_input.
Definition ref_flow_leaf : @pyvalue ref_tensors := VFlow ref_input.

(** A nested structure of the reference runtime: a tensor, a mapping with a
    scalar and a list with [None]. *)
Definition ref_structure : pyvalue :=
  VTuple [VTorch ref_input; VDict [(AStr "timestep", VAtom (AInt 981))];
          VList [VAtom ANone; VTorch ref_input]].

(** A graph wrapper of the reference runtime as its constructor leaves it,
    and the state after the construction. *)
Definition ref_fresh_graph : outcome UNetGraph * state :=
  get_unet_graph 9 ref_module ref_state.

(** ** Notions for the bridge and the deployable module *)

Section BridgeCounts.
Context `{T : Tensors}.

(** The number of leaves of a structure that are tensors of the dynamic
    framework, and of the compiled framework. *)
Fixpoint count_torch (v : pyvalue) : nat :=
  match v with
  | VTorch _ => 1%nat
  | VFlow _ | VAtom _ => 0%nat
  | VTuple xs | VList xs => sum_list (map count_torch xs)
  | VDict kvs =>
      (fix go (l : list (atom * pyvalue)) : nat :=
         match l with [] => 0%nat | (_, x) :: l' => (count_torch x + go l')%nat end) kvs
  end.

Fixpoint count_flow (v : pyvalue) : nat :=
  match v with
  | VFlow _ => 1%nat
  | VTorch _ | VAtom _ => 0%nat
  | VTuple xs | VList xs => sum_list (map count_flow xs)
  | VDict kvs =>
      (fix go (l : list (atom * pyvalue)) : nat :=
         match l with [] => 0%nat | (_, x) :: l' => (count_flow x + go l')%nat end) kvs
  end.
End BridgeCounts.

Section TraceNotions.
Context `{RT : Runtime}.

(** [records m st ev bound good]: run from [st], [m] adds to the trace the
    event [ev] some number of times and nothing else, at most [bound] times;
    when it returns, exactly [bound] times and with a result that is
    [good]. *)
Definition records {A} (m : M A) (st : state) (ev : event) (bound : nat)
    (good : A -> Prop) : Prop :=
  exists n : nat,
    st_trace (snd (m st)) = st_trace st ++ replicate n ev /\
    (n <= bound)%nat /\
    forall a, fst (m st) = Returned a -> good a /\ n = bound.

(** The event of the computation a call of the deployable module runs:
    the graph, or the method [name] of the base class. *)
Definition computation_event (use_graph : bool) (name : string) : event :=
  if use_graph then EvGraphCall else EvSuperCall name.
End TraceNotions.

(** *** A runtime whose conversion can fail

    The tensors of the reference runtime, with a conversion that refuses one
    data type; graphs without state, which run their [build] function as it
    is. *)
Definition picky_tensors : Tensors := {|
  TorchTensor := ref_tensor;
  FlowTensor := ref_tensor;
  from_torch := fun t =>
    if decide (rt_dtype t = "complex32"%string) then Raised TypeError else Returned t;
  to_torch := fun t => Returned t
|}.

Definition picky_runtime : @Runtime picky_tensors := {|
  World := unit;
  TorchModule := @ConvertedModule picky_tensors unit;
  GraphHandle := unit;
  StateDict := unit;
  Device := unit;
  torch2of := fun m => Returned m;
  graph_init := fun _ w => (Returned (), w);
  graph_call := fun _ build => build;
  runtime_state_dict := fun _ w => (Returned (), w);
  runtime_state_dict_to := fun sd _ w => (Returned sd, w);
  load_runtime_state_dict := fun _ _ w => (Returned (), w);
  flow_load := fun _ w => (Returned (), w);
  flow_save := fun _ _ w => (Returned (), w)
|}.

(** A deployable module of that runtime, in eager mode, whose [__call__]
    returns [None]. *)
Definition picky_module : @DeplayableModule picky_tensors picky_runtime := {|
  dm_super := {| cls_call := Some (fun _ w => (Returned (@VNone picky_tensors), w));
                 cls_apply_model := None;
                 cls_attrs := ∅ |};
  dm_use_graph := false;
  dm_attrs := ∅
|}.

(** A tensor that runtime does not convert. *)
Definition picky_input : @pyvalue picky_tensors :=
  @VTorch picky_tensors {| rt_dtype := "complex32"; rt_shape := [1]; rt_data := [0] |}.

Definition picky_state : @state picky_tensors picky_runtime :=
  @Build_state picky_tensors picky_runtime () [].

(** A module of the reference runtime with both entry points, as the models
    that define [apply_model] have: [apply_model] returns its first
    argument as it is. *)
Definition ref_apply_model : method ref_world :=
  fun args w =>
    match fst args with
    | x :: _ => (Returned x, w)
    | [] => (Raised TypeError, w)
    end.

Definition ref_ldm_module : ConvertedModule ref_world :=
  {| md_class := {| cls_call := Some ref_forward;
                    cls_apply_model := Some ref_apply_model;
                    cls_attrs := ∅ |};
     md_attrs := {["_dpl_graph"%string := VAtom ANone; "dtype"%string := VAtom (AStr "float16")]} |}.

Definition ref_ldm_torch_unet : @TorchModule ref_tensors ref_runtime := ref_ldm_module.

(** The positional and keyword arguments of a call of the reference
    runtime. *)
Definition ref_call_args : @call_args ref_tensors :=
  ([ref_torch_leaf; VAtom (AInt 981)],
   [("encoder_hidden_states"%string, ref_torch_leaf)]).

(** * Properties *)

(** ** Dictionaries *)
Section PyDictFacts.
Context {K V : Type} `{EqDecision K}.
Implicit Types (d : pydict K V) (k : K) (v : V).

Lemma dict_get_Some_elem k v d : dict_get k d = Some v -> (k, v) ∈ d.
Proof.
  induction d as [|[k' v'] d IH]; simpl; [done|].
  case_decide; intros Hg.
  - simplify_eq. left.
  - right. auto.
Qed.

Lemma dict_get_None_keys k d : dict_get k d = None <-> k ∉ dict_keys d.
Proof.
  induction d as [|[k' v'] d IH]; simpl.
  - split; [intros _; apply not_elem_of_nil | done].
  - rewrite not_elem_of_cons. case_decide; split; try done; try tauto.
Qed.

Lemma dict_get_elem_NoDup k v d :
  NoDup (dict_keys d) -> (k, v) ∈ d -> dict_get k d = Some v.
Proof.
  induction d as [|[k' v'] d IH]; simpl; intros Hnd Hin.
  - by apply elem_of_nil in Hin.
  - apply NoDup_cons in Hnd as [Hk Hnd].
    apply elem_of_cons in Hin as [Heq|Hin].
    + simplify_eq. by rewrite decide_True.
    + case_decide as Hkk; [|auto].
      subst k'. exfalso. apply Hk.
      apply list_elem_of_fmap. by exists (k, v).
Qed.

Lemma dict_get_keys_is_Some k d : k ∈ dict_keys d -> is_Some (dict_get k d).
Proof.
  intros Hin. destruct (dict_get k d) eqn:E; [eauto|].
  by apply dict_get_None_keys in E.
Qed.

Lemma dict_get_setitem_eq k v d : dict_get k (dict_setitem k v d) = Some v.
Proof.
  induction d as [|[k' v'] d IH]; simpl.
  - by rewrite decide_True.
  - case_decide as E; simpl.
    + by rewrite decide_True.
    + by rewrite decide_False.
Qed.

Lemma dict_get_setitem_ne k k' v d :
  k <> k' -> dict_get k' (dict_setitem k v d) = dict_get k' d.
Proof.
  intros Hne. induction d as [|[k0 v0] d IH]; simpl.
  - by rewrite decide_False.
  - case_decide as E; simpl.
    + subst k0. by rewrite !decide_False.
    + case_decide; [done|apply IH].
Qed.

Lemma dict_setitem_present k v d :
  k ∈ dict_keys d -> dict_keys (dict_setitem k v d) = dict_keys d.
Proof.
  induction d as [|[k0 v0] d IH]; simpl; intros Hin.
  - by apply elem_of_nil in Hin.
  - case_decide as E; simpl; [by subst|].
    f_equal. apply IH. apply elem_of_cons in Hin as [?|?]; [done|done].
Qed.

Lemma dict_setitem_absent k v d :
  k ∉ dict_keys d -> dict_setitem k v d = d ++ [(k, v)].
Proof.
  induction d as [|[k0 v0] d IH]; simpl; intros Hin; [done|].
  apply not_elem_of_cons in Hin as [Hne Hin].
  rewrite decide_False by done. f_equal. auto.
Qed.

Lemma dict_setitem_length k v d :
  (length (dict_setitem k v d) <= S (length d))%nat.
Proof.
  induction d as [|[k0 v0] d IH]; simpl; [lia|].
  case_decide; simpl; lia.
Qed.



Lemma dict_setitem_NoDup k v d :
  NoDup (dict_keys d) -> NoDup (dict_keys (dict_setitem k v d)).
Proof.
  intros Hnd. destruct (decide (k ∈ dict_keys d)) as [Hin|Hin].
  - by rewrite dict_setitem_present.
  - rewrite dict_setitem_absent by done. unfold dict_keys. rewrite map_app. simpl.
    apply NoDup_app. split; [done|]. split.
    + intros x Hx Hx'. apply list_elem_of_singleton in Hx'. by subst.
    + apply NoDup_singleton.
Qed.

Lemma dict_setitem_elem k v d x :
  x ∈ dict_setitem k v d -> x = (k, v) \/ x ∈ d.
Proof.
  induction d as [|[k0 v0] d IH]; simpl.
  - intros Hin%list_elem_of_singleton. by left.
  - case_decide as E.
    + subst k0. intros [->|Hin]%elem_of_cons; [by left|right; by right].
    + intros [->|Hin]%elem_of_cons; [right; left|].
      destruct (IH Hin) as [?|?]; [by left|right; by right].
Qed.

Lemma dict_elem_keys k v d : (k, v) ∈ d -> k ∈ dict_keys d.
Proof. intros Hin. apply list_elem_of_fmap. by exists (k, v). Qed.

Lemma dict_get_remove_ne k k' d :
  k <> k' -> dict_get k' (dict_remove k d) = dict_get k' d.
Proof.
  intros Hne. induction d as [|[k0 v0] d IH]; simpl; [done|].
  case_decide as E; simpl.
  - subst k0. by rewrite decide_False.
  - case_decide; [done|apply IH].
Qed.

Lemma dict_remove_keys_subseteq k d k' :
  k' ∈ dict_keys (dict_remove k d) -> k' ∈ dict_keys d.
Proof.
  induction d as [|[k0 v0] d IH]; simpl; [done|].
  case_decide; simpl.
  - by right.
  - intros [->|Hin]%elem_of_cons; [left|right; auto].
Qed.

Lemma dict_remove_NoDup k d :
  NoDup (dict_keys d) ->
  NoDup (dict_keys (dict_remove k d)) /\ k ∉ dict_keys (dict_remove k d).
Proof.
  induction d as [|[k0 v0] d IH]; simpl; intros Hnd.
  - split; [done|apply not_elem_of_nil].
  - apply NoDup_cons in Hnd as [Hk Hnd]. case_decide as E; simpl.
    + subst k0. done.
    + destruct (IH Hnd) as [IH1 IH2]. split.
      * apply NoDup_cons. split; [|done].
        intros Hin. by apply Hk, (dict_remove_keys_subseteq k).
      * apply not_elem_of_cons. done.
Qed.

Lemma dict_get_remove_eq k d :
  NoDup (dict_keys d) -> dict_get k (dict_remove k d) = None.
Proof. intros Hnd. apply dict_get_None_keys. by apply dict_remove_NoDup. Qed.

Lemma dict_remove_length k d :
  k ∈ dict_keys d -> length d = S (length (dict_remove k d)).
Proof.
  induction d as [|[k0 v0] d IH]; simpl; intros Hin.
  - by apply elem_of_nil in Hin.
  - case_decide as E; simpl; [done|].
    f_equal. apply IH. apply elem_of_cons in Hin as [?|?]; done.
Qed.

Lemma dict_remove_elem k d x : x ∈ dict_remove k d -> x ∈ d.
Proof.
  induction d as [|[k0 v0] d IH]; simpl; [done|].
  case_decide; simpl.
  - by right.
  - intros [->|Hin]%elem_of_cons; [left|right; auto].
Qed.

(** [min] returns a member of the iterable whose key is least, provided the
    key function returns on every member. *)
Lemma min_from_spec (f : K -> outcome Z) best fbest xs :
  f best = Returned fbest ->
  (forall x, x ∈ xs -> exists z, f x = Returned z) ->
  exists m fm, min_from f best fbest xs = Returned m /\
    (m = best \/ m ∈ xs) /\ f m = Returned fm /\ fm <= fbest /\
    forall x z, x ∈ xs -> f x = Returned z -> fm <= z.
Proof.
  revert best fbest. induction xs as [|x xs IH]; intros best fbest Hb Hall; simpl.
  - exists best, fbest. repeat split; auto; try lia.
    intros x z Hx. by apply elem_of_nil in Hx.
  - destruct (Hall x) as [fx Hfx]; [left|]. rewrite Hfx. simpl.
    assert (Hall' : forall y, y ∈ xs -> exists z, f y = Returned z).
    { intros y Hy. apply Hall. by right. }
    case_decide as Hlt.
    + destruct (IH x fx Hfx Hall') as (m & fm & Hm & Hin & Hfm & Hle & Hmin).
      exists m, fm. repeat split; auto; try lia.
      * right. destruct Hin as [->|?]; [left|by right].
      * intros y z [->|Hy]%elem_of_cons Hy'; [|eauto].
        rewrite Hfx in Hy'. simplify_eq. done.
    + destruct (IH best fbest Hb Hall') as (m & fm & Hm & Hin & Hfm & Hle & Hmin).
      exists m, fm. repeat split; auto.
      * destruct Hin as [->|?]; [by left|right; by right].
      * intros y z [->|Hy]%elem_of_cons Hy'; [|eauto].
        rewrite Hfx in Hy'. simplify_eq. lia.
Qed.

Lemma py_min_spec (f : K -> outcome Z) xs :
  xs <> [] ->
  (forall x, x ∈ xs -> exists z, f x = Returned z) ->
  exists m fm, py_min f xs = Returned m /\ m ∈ xs /\ f m = Returned fm /\
    forall x z, x ∈ xs -> f x = Returned z -> fm <= z.
Proof.
  destruct xs as [|x xs]; [done|]. intros _ Hall. simpl.
  destruct (Hall x) as [fx Hfx]; [left|]. rewrite Hfx. simpl.
  destruct (min_from_spec f x fx xs Hfx) as (m & fm & Hm & Hin & Hfm & Hle & Hmin).
  { intros y Hy. apply Hall. by right. }
  exists m, fm. repeat split; auto.
  - destruct Hin as [->|?]; [left|by right].
  - intros y z [->|Hy]%elem_of_cons Hy'; [|eauto].
    rewrite Hfx in Hy'. simplify_eq. done.
Qed.

End PyDictFacts.

(** ** The cache of compiled graphs *)
Section PipelineFacts.
Import Pipeline.
Import Img2Img.
Implicit Types (p : pipeline) (hw k : shape) (d : pydict shape (Z * UNetGraph)).

Lemma lru_time_get d k t g : dict_get k d = Some (t, g) -> lru_time d k = Returned t.
Proof. intros Hg. unfold lru_time, dict_getitem. by rewrite Hg. Qed.

Lemma lru_time_returned d k z :
  lru_time d k = Returned z -> exists g, dict_get k d = Some (z, g).
Proof.
  unfold lru_time, dict_getitem. destruct (dict_get k d) as [[t g]|]; simpl; [|done].
  intros ?; simplify_eq. eauto.
Qed.

Lemma evict_once_exit p :
  dict_len (unet_graphs p) < unet_graphs_cache_size p -> evict_once p = LoopExit.
Proof. intros Hlt. unfold evict_once. rewrite decide_False by lia. done. Qed.

Lemma evict_once_empty p :
  unet_graphs_cache_size p <= dict_len (unet_graphs p) -> unet_graphs p = [] ->
  evict_once p = LoopRaise ValueError.
Proof. intros Hle He. unfold evict_once. rewrite decide_True by done. by rewrite He. Qed.

Lemma evict_once_full p :
  unet_graphs_cache_size p <= dict_len (unet_graphs p) -> unet_graphs p <> [] ->
  exists k, oldest (unet_graphs p) k /\
    evict_once p =
      LoopNext (with_graphs (dict_remove k (unet_graphs p))
                  (print [MsgDeleted (fst k) (snd k); MsgCacheSizeHint] p)).
Proof.
  intros Hle Hne. unfold evict_once. rewrite decide_True by done.
  destruct (py_min_spec (lru_time (unet_graphs p)) (dict_keys (unet_graphs p)))
    as (m & fm & Hm & Hin & Hfm & Hmin).
  - destruct (unet_graphs p); [done|done].
  - intros x Hx. destruct (dict_get_keys_is_Some x _ Hx) as [[t g] Hg].
    exists t. by eapply lru_time_get.
  - rewrite Hm. apply lru_time_returned in Hfm as [g Hg].
    exists m. split.
    + exists fm, g. split; [done|]. intros k' t' g' Hk'.
      apply (Hmin k' t'); [|by eapply lru_time_get].
      eapply dict_elem_keys, dict_get_Some_elem, Hk'.
    + simpl. unfold dict_delitem, dict_contains. by rewrite Hg.
Qed.

(** The loop ends, whatever the capacity: it leaves through its condition,
    or [min] raises on the emptied dictionary. *)
Lemma evict_while_spec fuel p :
  (length (unet_graphs p) <= fuel)%nat ->
  exists r p' ks,
    evict_while fuel p = Some (r, p') /\
    evicts (unet_graphs p) ks (unet_graphs p') /\
    unet_graphs_cache_size p' = unet_graphs_cache_size p /\
    unet_graphs_lru_cache_time p' = unet_graphs_lru_cache_time p /\
    graphs_built p' = graphs_built p /\
    stdout p' = stdout p ++ eviction_messages ks /\
    ((r = Returned () /\
      dict_len (unet_graphs p') =
        Z.min (dict_len (unet_graphs p)) (unet_graphs_cache_size p - 1)) \/
     (r = Raised ValueError /\ unet_graphs p' = [] /\ unet_graphs_cache_size p <= 0)).
Proof.
  revert p. induction fuel as [|fuel IH]; intros p Hfuel.
  - destruct (unet_graphs p) as [|e d] eqn:Hd; [|simpl in Hfuel; lia].
    destruct (decide (unet_graphs_cache_size p <= 0)) as [Hc|Hc].
    + exists (Raised ValueError), p, []. simpl.
      rewrite evict_once_empty; [|rewrite Hd; done|done].
      rewrite Hd, app_nil_r. repeat split; auto using evicts_nil.
    + exists (Returned ()), p, []. simpl.
      rewrite evict_once_exit; [|rewrite Hd; unfold dict_len; simpl; lia].
      rewrite Hd, app_nil_r. repeat split; auto using evicts_nil.
      left. split; [done|]. unfold dict_len; simpl; lia.
  - destruct (decide (unet_graphs_cache_size p <= dict_len (unet_graphs p))) as [Hc|Hc].
    + destruct (nil_or_length_pos (unet_graphs p)) as [Hd|Hd].
      * exists (Raised ValueError), p, []. simpl.
        rewrite evict_once_empty by done.
        rewrite app_nil_r. repeat split; auto using evicts_nil.
        right. repeat split; auto. rewrite Hd in Hc. done.
      * assert (Hne : unet_graphs p <> []) by (intros E; rewrite E in Hd; simpl in Hd; lia).
        destruct (evict_once_full p) as (k & Hold & Hev); [done|done|].
        set (p1 := with_graphs _ _) in Hev.
        destruct (IH p1) as (r & p' & ks & Hw & Hevs & Hcap & Htime & Hb & Hout & Hr).
        { subst p1. simpl. destruct Hold as (t & g & Hg & _).
          apply dict_get_Some_elem, dict_elem_keys, (dict_remove_length k) in Hg.
          lia. }
        assert (Hlen : dict_len (unet_graphs p) = dict_len (unet_graphs p1) + 1).
        { subst p1. simpl. destruct Hold as (t & g & Hg & _).
          apply dict_get_Some_elem, dict_elem_keys, (dict_remove_length k) in Hg.
          unfold dict_len. lia. }
        exists r, p', (k :: ks). simpl. rewrite Hev. rewrite Hw.
        split_and!; auto.
        -- econstructor; [done|]. exact Hevs.
        -- rewrite Hout. subst p1. simpl. by rewrite <- app_assoc.
        -- destruct Hr as [[-> Hr]|Hr]; [left|by right].
           split; [done|]. rewrite Hr.
           change (unet_graphs_cache_size p1) with (unet_graphs_cache_size p). lia.
    + exists (Returned ()), p, []. simpl.
      rewrite evict_once_exit by lia. rewrite app_nil_r.
      repeat split; auto using evicts_nil. left. split; [done|lia].
Qed.

Lemma evicts_keys_subseteq d ks d' k :
  evicts d ks d' -> k ∈ dict_keys d' -> k ∈ dict_keys d.
Proof.
  induction 1 as [|d k0 ks d' Hold Hev IH]; [done|].
  intros Hin. eapply dict_remove_keys_subseteq, IH, Hin.
Qed.

Lemma evicts_props d ks d' :
  NoDup (dict_keys d) -> evicts d ks d' ->
  NoDup (dict_keys d') /\
  length d = (length ks + length d')%nat /\
  (forall k, k ∈ ks -> dict_get k d' = None) /\
  (forall k, k ∉ ks -> dict_get k d' = dict_get k d) /\
  (forall k v, dict_get k d' = Some v -> dict_get k d = Some v) /\
  (forall k1 t1 g1 k2 t2 g2, k1 ∈ ks -> dict_get k1 d = Some (t1, g1) ->
     dict_get k2 d' = Some (t2, g2) -> t1 <= t2).
Proof.
  intros Hnd Hev. induction Hev as [|d k ks d' Hold Hev IH].
  - split_and!; auto.
    + intros k Hk. by apply elem_of_nil in Hk.
    + intros k1 t1 g1 k2 t2 g2 Hk. by apply elem_of_nil in Hk.
  - destruct (dict_remove_NoDup k d Hnd) as [Hnd' Hk'].
    destruct (IH Hnd') as (I1 & I2 & I3 & I4 & I5 & I6).
    assert (Hsub : forall k0 v, dict_get k0 d' = Some v -> dict_get k0 d = Some v).
    { intros k0 v Hg. apply I5 in Hg. destruct (decide (k = k0)) as [->|Hne].
      - rewrite dict_get_remove_eq in Hg by done. done.
      - by rewrite dict_get_remove_ne in Hg. }
    assert (Hgone : dict_get k d' = None).
    { destruct (dict_get k d') as [v|] eqn:E; [|done].
      apply I5 in E. rewrite dict_get_remove_eq in E by done. done. }
    split_and!; auto.
    + destruct Hold as (t & g & Hg & _).
      apply dict_get_Some_elem, dict_elem_keys, (dict_remove_length k) in Hg.
      simpl. lia.
    + intros k0 [->|Hin]%elem_of_cons; auto.
    + intros k0 [Hne Hin]%not_elem_of_cons.
      rewrite I4 by done. by apply dict_get_remove_ne.
    + intros k1 t1 g1 k2 t2 g2 Hk1 Hg1 Hg2.
      destruct (decide (k1 = k)) as [->|Hne].
      * destruct Hold as (t & g & Hg & Hmin). rewrite Hg in Hg1. simplify_eq.
        eapply Hmin, Hsub, Hg2.
      * apply elem_of_cons in Hk1 as [?|Hk1]; [done|].
        eapply I6; [done| |done]. by rewrite dict_get_remove_ne.
Qed.

(** *** The call in the namespace of the module *)

(** Line 272 raises before the block does anything. *)
Lemma cache_block_module_globals timesteps construct compile compile_unet p :
  cache_block module_globals timesteps construct compile compile_unet p
  = Some (Raised NameError, p).
Proof. reflexivity. Qed.

Lemma pipeline_call_module_globals lib sch req p :
  pipeline_call module_globals lib sch req p = Some (Raised (call_exception lib sch req), p).
Proof.
  unfold pipeline_call, call_exception. by destruct (call_prefix lib sch req).
Qed.

Lemma run_calls_module_globals lib sch reqs p :
  run_calls module_globals lib sch reqs p =
  Some (map (fun req => Raised (call_exception lib sch req)) reqs, p).
Proof.
  induction reqs as [|req reqs IH]; [done|].
  cbn [run_calls map]. by rewrite pipeline_call_module_globals, IH.
Qed.

Lemma call_prefix_ref size :
  exists timesteps, call_prefix ref_library ref_scheduler (ref_request size) = Returned timesteps.
Proof. destruct size as [w h]. eexists. vm_compute. reflexivity. Qed.

Lemma call_exception_ref size :
  call_exception ref_library ref_scheduler (ref_request size) = NameError.
Proof.
  unfold call_exception. by destruct (call_prefix_ref size) as [ts ->].
Qed.

(** C1. The source on a call of the pipeline, with [compile_unet=True] or
    not: whatever the arguments, the scheduler, the libraries and the
    pipeline, the call raises and leaves the pipeline as it was, so the
    clock is not incremented and nothing is inserted or removed; when the
    lines before line 272 return, the exception is the [NameError] of
    [timer] at line 272.  So it is for a prompt, a 512x512 image and the
    default arguments on a new pipeline. *)
Theorem no_call_reaches_the_cache (lib : library) (sch : scheduler) (req : request)
    (p : pipeline) :
  exists e,
    pipeline_call module_globals lib sch req p = Some (Raised e, p) /\
    (forall timesteps, call_prefix lib sch req = Returned timesteps -> e = NameError) /\
    pipeline_call module_globals ref_library ref_scheduler (ref_request (512, 512)) init
      = Some (Raised NameError, init).
Proof.
  exists (call_exception lib sch req). split; [apply pipeline_call_module_globals|].
  split.
  - intros timesteps Hpre. unfold call_exception. by rewrite Hpre.
  - by rewrite pipeline_call_module_globals, call_exception_ref.
Qed.

(** C2. The source on two calls with the same arguments, hence the same
    shape: the second call raises as the first did and returns no graph;
    the pipeline after the first call is the pipeline before it, so the
    shape is not in the cache when the second call starts, and its time is
    not updated.  With a 512x512 image on a new pipeline both calls raise
    [NameError] and the cache is empty after each. *)
Theorem same_shape_twice_never_hits (lib : library) (sch : scheduler) (req : request)
    (p : pipeline) :
  exists e,
    run_calls module_globals lib sch [req; req] p = Some ([Raised e; Raised e], p) /\
    run_calls module_globals ref_library ref_scheduler
      [ref_request (512, 512); ref_request (512, 512)] init
      = Some ([Raised NameError; Raised NameError], init) /\
    unet_graphs init = [] /\
    graphs_built init = 0%nat.
Proof.
  exists (call_exception lib sch req). split; [apply run_calls_module_globals|].
  split; [|done].
  rewrite run_calls_module_globals. cbn [map]. by rewrite call_exception_ref.
Qed.

(** C3. The source on the five accesses of the claim, with images of the
    sizes [A], [B], [C], [A], [D] and the capacity 2: each call raises
    [NameError]; afterwards the cache is empty, so it holds neither [A] nor
    [D], no shape was deleted, no graph was built and the clock is still
    0. *)
Theorem five_accesses_leave_the_cache_empty (A B C D : shape) :
  exists p',
    run_calls module_globals ref_library ref_scheduler
      (map ref_request [A; B; C; A; D]) (snd (set_unet_graphs_cache_size 2 init))
      = Some (replicate 5 (Raised NameError), p') /\
    unet_graphs_cache_size p' = 2 /\
    unet_graphs p' = [] /\
    entry_of p' A = None /\
    entry_of p' D = None /\
    deleted (stdout p') = [] /\
    graphs_built p' = 0%nat /\
    unet_graphs_lru_cache_time p' = 0.
Proof.
  exists (snd (set_unet_graphs_cache_size 2 init)). split; [|done].
  rewrite run_calls_module_globals. cbn [map replicate].
  by rewrite !call_exception_ref.
Qed.

(** C4, as the specification states it, fails: [set_unet_graphs_cache_size]
    accepts the capacity 0 on a new pipeline; it returns and stores 0. *)
Lemma set_cache_size_zero_accepted :
  raises (fst (set_unet_graphs_cache_size 0 init)) = false /\
  unet_graphs_cache_size (snd (set_unet_graphs_cache_size 0 init)) = 0.
Proof. split; reflexivity. Qed.

(** C4, amended. [set_unet_graphs_cache_size n] returns for every integer
    [n], also below 1: it stores [n] as the capacity and touches nothing
    else, so every entry stays, with its time and its graph, even when [n]
    is below the occupancy. *)
Theorem set_cache_size_is_lazy (n : Z) (p : pipeline) :
  exists p1,
    set_unet_graphs_cache_size n p = (Returned (), p1) /\
    unet_graphs_cache_size p1 = n /\
    unet_graphs p1 = unet_graphs p /\
    unet_graphs_lru_cache_time p1 = unet_graphs_lru_cache_time p /\
    graphs_built p1 = graphs_built p /\
    stdout p1 = stdout p /\
    dict_len (unet_graphs p1) = dict_len (unet_graphs p) /\
    (forall hw, entry_of p1 hw = entry_of p hw).
Proof.
  exists (snd (set_unet_graphs_cache_size n p)). split_and!; reflexivity.
Qed.

Lemma set_cache_size_is_lazy_witness :
  exists p1,
    set_unet_graphs_cache_size 1 cache_full_AB = (Returned (), p1) /\
    unet_graphs_cache_size p1 = 1 /\
    dict_len (unet_graphs p1) = 2 /\
    deleted (stdout p1) = [].
Proof.
  destruct (set_cache_size_is_lazy 1 cache_full_AB)
    as (p1 & Hset & Hcap & Hd & _ & _ & Hout & _).
  exists p1. split; [exact Hset|]. split; [exact Hcap|].
  split; [by rewrite Hd|by rewrite Hout].
Defined.

End PipelineFacts.

(** ** Image size, scheduler configuration, attention slicing, and the
    lines of a call before the cache *)
Section Img2ImgFacts.
Import Pipeline.
Import Img2Img.

Lemma round_to_32_spec (x : Z) :
  (32 | round_to_32 x) /\ x - 32 < round_to_32 x <= x.
Proof.
  unfold round_to_32. pose proof (Z.mod_pos_bound x 32 ltac:(lia)).
  split; [|lia]. exists (x / 32). pose proof (Z.div_mod x 32 ltac:(lia)). lia.
Qed.

(** X6. [preprocess] passes to [image.resize] the largest multiples of 32
    that do not exceed the width and the height of the image, and returns
    or raises as the resizing and conversion do: each side asked for is
    less than 32 below the side of the image, a size of multiples of 32 is
    asked for as it is, and for a side below 32 the size asked for has a
    side 0; so where the library refuses a size with a side 0,
    [preprocess] raises on such an image. *)
Theorem preprocess_passes_multiples_of_32_to_resize (lib : library) (w h : Z) :
  exists w' h',
    resize_argument (w, h) = (w', h') /\
    preprocess lib (w, h) = lib_resize lib (w', h') /\
    (32 | w') /\ (32 | h') /\
    w - 32 < w' <= w /\ h - 32 < h' <= h /\
    (forall m, (32 | m) -> m <= w -> m <= w') /\
    (forall m, (32 | m) -> m <= h -> m <= h') /\
    resize_argument (w', h') = (w', h') /\
    (w' = 0 <-> 0 <= w < 32) /\ (h' = 0 <-> 0 <= h < 32) /\
    ((forall size e, lib_resize lib size = Raised e <-> e = ValueError /\ (fst size = 0 \/ snd size = 0)) ->
     (preprocess lib (w, h) = Raised ValueError <-> 0 <= w < 32 \/ 0 <= h < 32)).
Proof.
  assert (Hmax : forall x m, (32 | m) -> m <= x -> m <= round_to_32 x).
  { intros x m [q ->] Hle. destruct (round_to_32_spec x) as [[q' Hq'] Hb].
    rewrite Hq' in *. nia. }
  assert (Hfix : forall x, (32 | x) -> round_to_32 x = x).
  { intros x Hx. unfold round_to_32. apply Z.mod_divide in Hx; lia. }
  assert (Hzero : forall x, round_to_32 x = 0 <-> 0 <= x < 32).
  { intros x. unfold round_to_32. split.
    - intros Hx. pose proof (Z.mod_pos_bound x 32 ltac:(lia)). lia.
    - intros Hx. rewrite Z.mod_small by done. lia. }
  exists (round_to_32 w), (round_to_32 h).
  destruct (round_to_32_spec w) as [Hw1 Hw2], (round_to_32_spec h) as [Hh1 Hh2].
  split; [done|]. split; [done|]. split; [done|]. split; [done|].
  split; [lia|]. split; [lia|]. split; [by apply Hmax|]. split; [by apply Hmax|].
  split. { unfold resize_argument. by rewrite (Hfix _ Hw1), (Hfix _ Hh1). }
  split; [apply Hzero|]. split; [apply Hzero|].
  intros Hlib. unfold preprocess, resize_argument. rewrite Hlib. simpl.
  rewrite !Hzero. split; [by intros [_ ?]|done].
Qed.

(** X7. [__init__] leaves a scheduler configuration whose [steps_offset],
    when there is one, is 1: the offset a call reads is then 0 or 1.  Every
    other entry is kept, a warning is issued exactly when the configuration
    is changed, and a configuration that went through it goes through it
    again unchanged and without warning. *)
Theorem init_repairs_steps_offset (config : gmap string Z) :
  exists config' ws,
    init_scheduler_config config = (config', ws) /\
    (forall v, config' !! "steps_offset"%string = Some v -> v = 1) /\
    (is_Some (config' !! "steps_offset"%string) <->
     is_Some (config !! "steps_offset"%string)) /\
    (steps_offset_of config' = 0 \/ steps_offset_of config' = 1) /\
    (forall k, k <> "steps_offset"%string -> config' !! k = config !! k) /\
    (ws = [] <-> config' = config) /\
    init_scheduler_config config' = (config', []).
Proof.
  unfold init_scheduler_config, steps_offset_of.
  destruct (config !! "steps_offset"%string) as [v|] eqn:Hv.
  - case_decide as Hne.
    + eexists _, _. split; [reflexivity|].
      rewrite !lookup_insert_eq. simpl. split_and!.
      * by intros ? [= <-].
      * split; eauto.
      * by right.
      * intros k Hk. by rewrite lookup_insert_ne.
      * split; [done|]. intros Heq.
        apply (f_equal (fun m => m !! "steps_offset"%string)) in Heq.
        rewrite lookup_insert_eq, Hv in Heq. by simplify_eq.
      * done.
    + subst v.
      eexists _, _. split; [reflexivity|]. rewrite !Hv. simpl. split_and!.
      * by intros ? [= <-].
      * done.
      * by right.
      * done.
      * done.
      * done.
  - eexists _, _. split; [reflexivity|]. rewrite !Hv. simpl. split_and!.
    + done.
    + done.
    + by left.
    + done.
    + done.
    + done.
Qed.

(** X8. With ["auto"], [enable_attention_slicing] passes half the head
    dimension, rounded down.  For a head dimension of at least 2 that is at
    least 1, and the head dimension is a multiple of it, as the docstring
    asks, exactly when the head dimension is even or equal to 3.  Any other
    argument is passed on as it is, and [disable_attention_slicing] passes
    [None]. *)
Theorem auto_slice_is_half_the_head (d : Z) :
  2 <= d ->
  exists s,
    enable_attention_slicing d (Some (inl "auto"%string)) = Some (inr s) /\
    1 <= s /\ 2 * s <= d <= 2 * s + 1 /\
    ((s | d) <-> (2 | d) \/ d = 3) /\
    (forall z, enable_attention_slicing d (Some (inr z)) = Some (inr z)) /\
    (forall name, name <> "auto"%string ->
       enable_attention_slicing d (Some (inl name)) = Some (inl name)) /\
    disable_attention_slicing d = None.
Proof.
  intros Hd. exists (d / 2). unfold disable_attention_slicing, enable_attention_slicing.
  pose proof (Z.div_mod d 2 ltac:(lia)) as Hdm.
  pose proof (Z.mod_pos_bound d 2 ltac:(lia)) as Hb.
  split_and!.
  - done.
  - lia.
  - lia.
  - lia.
  - split.
    + intros [q Hq]. destruct (decide (d mod 2 = 0)) as [Hz|Hz].
      * left. apply Z.mod_divide; lia.
      * right. assert (d mod 2 = 1) as H1 by lia.
        remember (d / 2) as s eqn:Hs. clear Hs.
        assert (s * (q - 2) = 1) as Hprod by lia.
        apply Z.eq_mul_1 in Hprod as [?|?]; lia.
    + intros [[q Hq]| ->].
      * exists 2. rewrite Hq. rewrite Z.div_mul by lia. lia.
      * exists 3. reflexivity.
  - done.
  - intros name Hne. by rewrite decide_False.
  - done.
Qed.

Lemma py_getitem_spec {A} (xs : list A) (i : Z) :
  let j := if decide (i < 0) then i + Z.of_nat (length xs) else i in
  (0 <= j < Z.of_nat (length xs) /\
   exists x, xs !! Z.to_nat j = Some x /\ py_getitem xs i = Returned x) \/
  (~ 0 <= j < Z.of_nat (length xs) /\ py_getitem xs i = Raised IndexError).
Proof.
  intros j. unfold py_getitem. fold j.
  destruct (decide (0 <= j < Z.of_nat (length xs))) as [Hin|Hout]; [left|right; done].
  split; [done|]. destruct (xs !! Z.to_nat j) as [x|] eqn:Hl; [eauto|].
  apply lookup_ge_None in Hl. lia.
Qed.

Lemma py_getitem_raises {A} (xs : list A) (i : Z) e :
  py_getitem xs i = Raised e <->
  e = IndexError /\ (i < - Z.of_nat (length xs) \/ Z.of_nat (length xs) <= i).
Proof.
  destruct (py_getitem_spec xs i) as [(Hin & x & Hx & ->)|(Hout & ->)].
  - split; [done|]. intros [_ Hr]. exfalso. case_decide; lia.
  - split.
    + intros [= <-]. split; [done|]. case_decide; lia.
    + by intros [-> _].
Qed.

Lemma py_getitem_returned {A} (xs : list A) (i : Z) x :
  py_getitem xs i = Returned x <->
  (0 <= i /\ xs !! Z.to_nat i = Some x) \/
  (i < 0 /\ 0 <= i + Z.of_nat (length xs) /\
   xs !! Z.to_nat (i + Z.of_nat (length xs)) = Some x).
Proof.
  destruct (py_getitem_spec xs i) as [(Hin & y & Hy & ->)|(Hout & ->)].
  - case_decide as Hneg.
    + split.
      * intros [= <-]. right. split_and!; [done|lia|done].
      * intros [[? _]|(_ & _ & Hx)]; [lia|]. congruence.
    + split.
      * intros [= <-]. left. split; [lia|done].
      * intros [[_ Hx]|(? & _)]; [|lia]. congruence.
  - split; [done|]. intros [[? Hx]|(? & ? & Hx)]; apply lookup_lt_Some in Hx;
      exfalso; apply Hout; case_decide; lia.
Qed.

(** The lines before line 272, when the libraries return. *)
Lemma call_prefix_returns lib sch req timesteps :
  library_returns lib ->
  lib_set_timesteps lib (req_num_inference_steps req) = Returned timesteps ->
  call_prefix lib sch req =
    (try batch_size <- batch_size_of (req_prompt req);
     try scaled <- check_strength (req_strength req);
     try scaled <- scaled;
     try noise <-
       noise_timesteps sch (req_num_inference_steps req) batch_size scaled timesteps;
     Returned timesteps).
Proof.
  intros (_ & Hres & Henc & Hnoise & Htext) Hts. unfold call_prefix, preprocess.
  destruct (batch_size_of (req_prompt req)) as [bs|]; [|done]. simpl.
  destruct (check_strength (req_strength req)) as [scaled|]; [|done]. simpl.
  rewrite Hts. simpl.
  assert (Himg : match req_init_image req with
                 | PILImage size => lib_resize lib (resize_argument size)
                 | TensorImage => Returned ()
                 end = Returned ()).
  { destruct (req_init_image req); [apply Hres|done]. }
  rewrite Himg, Henc. simpl.
  destruct scaled as [scaled|]; [|done]. simpl.
  destruct (noise_timesteps _ _ _ _ _) as [noise|]; [|done]. simpl.
  by rewrite Hnoise, Htext.
Qed.

Lemma noise_exception (sch : scheduler) (n : Z) (bs : nat) (scaled : Z)
    (timesteps : list Z) (e : pyexn) :
  match (try noise <- noise_timesteps sch n bs scaled timesteps; Returned timesteps) with
  | Raised e' => e'
  | Returned _ => NameError
  end = e <->
  (e = IndexError /\ sch_is_lms sch = false /\
   (Z.of_nat (length timesteps) < Z.min (scaled + steps_offset_of (sch_config sch)) n \/
    Z.min (scaled + steps_offset_of (sch_config sch)) n <= - Z.of_nat (length timesteps))) \/
  (e = NameError /\
   (sch_is_lms sch = true \/
    - Z.of_nat (length timesteps) < Z.min (scaled + steps_offset_of (sch_config sch)) n
      <= Z.of_nat (length timesteps))).
Proof.
  unfold noise_timesteps. set (i := Z.min _ n).
  destruct (sch_is_lms sch); simpl.
  { split.
    - intros <-. right. split; [done|by left].
    - intros [(_ & ? & _)|[-> _]]; done. }
  destruct (py_getitem timesteps (- i)) as [x|e'] eqn:Hget; simpl.
  - assert (Hin : - Z.of_nat (length timesteps) < i <= Z.of_nat (length timesteps)).
    { apply py_getitem_returned in Hget as [[Hnn Hx]|(Hneg & Hin & Hx)];
        apply lookup_lt_Some in Hx; lia. }
    split.
    + intros <-. right. split; [done|by right].
    + intros [(-> & _ & Hr)|[-> _]]; [lia|done].
  - apply py_getitem_raises in Hget as [-> Hr]. split.
    + intros <-. left. split; [done|]. split; [done|lia].
    + intros [(-> & _)|(-> & [?|?])]; [done|done|lia].
Qed.


(** X11. Unless the scheduler is an [LMSDiscreteScheduler], the latents
    are noised to the timestep that stands [init_timestep] places before
    the end of the timesteps of the scheduler, once per prompt, when
    [init_timestep = min(scaled + offset, num_inference_steps)] is at least
    1 and at most their number. *)
Theorem noise_timestep_counts_from_the_end (sch : scheduler)
    (num_inference_steps : Z) (batch_size : nat) (scaled : Z) (timesteps : list Z) :
  sch_is_lms sch = false ->
  1 <= Z.min (scaled + steps_offset_of (sch_config sch)) num_inference_steps
    <= Z.of_nat (length timesteps) ->
  exists t,
    noise_timesteps sch num_inference_steps batch_size scaled timesteps
      = Returned (replicate batch_size t) /\
    timesteps !! (length timesteps
                  - Z.to_nat (Z.min (scaled + steps_offset_of (sch_config sch))
                                num_inference_steps))%nat = Some t.
Proof.
  intros Hlms Hi. unfold noise_timesteps. rewrite Hlms.
  set (i := Z.min _ _) in *.
  destruct (lookup_lt_is_Some_2 timesteps (length timesteps - Z.to_nat i)%nat)
    as [t Ht]; [lia|].
  exists t. split; [|done].
  assert (Hget : py_getitem timesteps (- i) = Returned t).
  { apply py_getitem_returned. right. split; [lia|]. split; [lia|].
    rewrite <- Ht. f_equal. lia. }
  by rewrite Hget.
Qed.

(** X12. With [scaled = 0] and no offset, which is what a strength of 0
    gives, and a scheduler that is no [LMSDiscreteScheduler], the latents
    are noised to the first timestep of the scheduler: the index
    [-init_timestep] is then 0, not the position after the last timestep. *)
Theorem zero_strength_noises_to_first_timestep (sch : scheduler)
    (num_inference_steps : Z) (batch_size : nat) (t0 : Z) (timesteps : list Z) :
  sch_is_lms sch = false ->
  steps_offset_of (sch_config sch) = 0 ->
  0 <= num_inference_steps ->
  noise_timesteps sch num_inference_steps batch_size 0 (t0 :: timesteps)
    = Returned (replicate batch_size t0).
Proof.
  intros Hlms Hoff Hn. unfold noise_timesteps. rewrite Hlms, Hoff.
  assert (Hmin : Z.min (0 + 0) num_inference_steps = 0) by lia.
  assert (Hget : py_getitem (t0 :: timesteps) (- 0) = Returned t0).
  { apply py_getitem_returned. left. done. }
  by rewrite Hmin, Hget.
Qed.

(** X25. In every state a pipeline reaches, whatever the calls, their
    arguments and the libraries did, the cache is empty: no graph was built,
    the clock is 0 and nothing was printed by lines 274-294. *)
Theorem reachable_cache_is_empty (p : pipeline) :
  reachable p ->
  unet_graphs p = [] /\
  unet_graphs_lru_cache_time p = 0 /\
  graphs_built p = 0%nat /\
  stdout p = [].
Proof.
  induction 1 as [|n p Hr IH|lib sch req p r p' Hr IH Hcall]; [done|exact IH|].
  rewrite pipeline_call_module_globals in Hcall. by injection Hcall as _ <-.
Qed.

End Img2ImgFacts.

(** ** The bridge and the deployable module *)
Section CompileFacts.
Context `{RT : Runtime}.

Lemma pyvalue_nested_ind (P : pyvalue -> Prop) :
  (forall t, P (VTorch t)) ->
  (forall t, P (VFlow t)) ->
  (forall a, P (VAtom a)) ->
  (forall xs, Forall P xs -> P (VTuple xs)) ->
  (forall xs, Forall P xs -> P (VList xs)) ->
  (forall kvs, Forall (fun kv => P (snd kv)) kvs -> P (VDict kvs)) ->
  forall v, P v.
Proof.
  intros Ht Hf Ha Htu Hli Hdi. fix IH 1. intros [t|t|a|xs|xs|kvs].
  - apply Ht.
  - apply Hf.
  - apply Ha.
  - apply Htu. induction xs as [|x xs IHxs]; constructor; [apply IH|exact IHxs].
  - apply Hli. induction xs as [|x xs IHxs]; constructor; [apply IH|exact IHxs].
  - apply Hdi. induction kvs as [|[k x] kvs IHkvs]; constructor; [apply IH|exact IHkvs].
Qed.

Lemma map_leaf_VTuple f xs :
  map_leaf f (VTuple xs) = (do ys <- map_items (map_leaf f) xs; ret (VTuple ys)).
Proof. reflexivity. Qed.

Lemma map_leaf_VList f xs :
  map_leaf f (VList xs) = (do ys <- map_items (map_leaf f) xs; ret (VList ys)).
Proof. reflexivity. Qed.

Lemma map_leaf_VDict f kvs :
  map_leaf f (VDict kvs) = (do ys <- map_values (map_leaf f) kvs; ret (VDict ys)).
Proof. reflexivity. Qed.

Lemma bind_returned {A B} (m : M A) (k : A -> M B) st b st' :
  (do x <- m; k x) st = (Returned b, st') ->
  exists a st1, m st = (Returned a, st1) /\ k a st1 = (Returned b, st').
Proof.
  unfold bind. destruct (m st) as [[a|e] st1]; [eauto|]. intros ?; simplify_eq.
Qed.

Lemma returns_ret {A} (a : A) : returns (ret a) a [].
Proof. intros [w tr]. unfold ret. simpl. by rewrite app_nil_r. Qed.

Lemma returns_bind {A B} (m : M A) (k : A -> M B) a evs b evs' :
  returns m a evs -> returns (k a) b evs' -> returns (do x <- m; k x) b (evs ++ evs').
Proof.
  intros Hm Hk st. unfold bind. rewrite Hm, Hk. simpl. by rewrite app_assoc.
Qed.

Lemma returns_emit ev : returns (emit ev) () [ev].
Proof. intros st. reflexivity. Qed.

Lemma returns_lift {A} (a : A) : returns (lift (Returned a)) a [].
Proof. intros [w tr]. unfold lift. simpl. by rewrite app_nil_r. Qed.

Lemma dynamic_only_VTuple xs :
  dynamic_only (VTuple xs) = true <-> Forall (fun x => dynamic_only x = true) xs.
Proof.
  simpl. induction xs as [|x xs IH].
  - split; [constructor|done].
  - rewrite andb_true_iff, IH, Forall_cons. done.
Qed.

Lemma dynamic_only_VList xs :
  dynamic_only (VList xs) = true <-> Forall (fun x => dynamic_only x = true) xs.
Proof. exact (dynamic_only_VTuple xs). Qed.

Lemma dynamic_only_VDict kvs :
  dynamic_only (VDict kvs) = true <-> Forall (fun kv => dynamic_only (snd kv) = true) kvs.
Proof.
  simpl. induction kvs as [|[k x] kvs IH].
  - split; [constructor|done].
  - rewrite andb_true_iff, IH, Forall_cons. done.
Qed.

Lemma skeleton_of_VDict kvs :
  skeleton_of (VDict kvs) = SDict (map (fun kv => (fst kv, skeleton_of (snd kv))) kvs).
Proof.
  simpl. f_equal. induction kvs as [|[k x] kvs IH]; simpl; [done|]. by rewrite IH.
Qed.

(** The round trip on the items of a sequence, given the round trip on each
    item. *)
Lemma map_items_round_trip xs :
  Forall (fun v => dynamic_only v = true ->
    exists v' evs evs',
      returns (map_leaf input_fn v) v' evs /\
      returns (map_leaf output_fn v') v evs' /\
      skeleton_of v' = skeleton_of v) xs ->
  Forall (fun x => dynamic_only x = true) xs ->
  exists ys evs evs',
    returns (map_items (map_leaf input_fn) xs) ys evs /\
    returns (map_items (map_leaf output_fn) ys) xs evs' /\
    map skeleton_of ys = map skeleton_of xs.
Proof.
  induction xs as [|x xs IHxs]; intros IH Hdyn.
  - exists [], [], []. split_and!; [apply returns_ret|apply returns_ret|done].
  - apply Forall_cons in IH as [IHx IH]. apply Forall_cons in Hdyn as [Hx Hdyn].
    destruct (IHx Hx) as (y & e1 & e1' & Hy & Hy' & Hs).
    destruct (IHxs IH Hdyn) as (ys & e2 & e2' & Hys & Hys' & Hss).
    exists (y :: ys), (e1 ++ e2 ++ []), (e1' ++ e2' ++ []). split_and!.
    + simpl. eapply returns_bind; [exact Hy|].
      eapply returns_bind; [exact Hys|apply returns_ret].
    + simpl. eapply returns_bind; [exact Hy'|].
      eapply returns_bind; [exact Hys'|apply returns_ret].
    + simpl. by rewrite Hs, Hss.
Qed.

Lemma map_values_round_trip kvs :
  Forall (fun kv => dynamic_only (snd kv) = true ->
    exists v' evs evs',
      returns (map_leaf input_fn (snd kv)) v' evs /\
      returns (map_leaf output_fn v') (snd kv) evs' /\
      skeleton_of v' = skeleton_of (snd kv)) kvs ->
  Forall (fun kv => dynamic_only (snd kv) = true) kvs ->
  exists ys evs evs',
    returns (map_values (map_leaf input_fn) kvs) ys evs /\
    returns (map_values (map_leaf output_fn) ys) kvs evs' /\
    map (fun kv => (fst kv, skeleton_of (snd kv))) ys
      = map (fun kv => (fst kv, skeleton_of (snd kv))) kvs.
Proof.
  induction kvs as [|[k x] kvs IHkvs]; intros IH Hdyn.
  - exists [], [], []. split_and!; [apply returns_ret|apply returns_ret|done].
  - apply Forall_cons in IH as [IHx IH]. apply Forall_cons in Hdyn as [Hx Hdyn].
    destruct (IHx Hx) as (y & e1 & e1' & Hy & Hy' & Hs).
    destruct (IHkvs IH Hdyn) as (ys & e2 & e2' & Hys & Hys' & Hss).
    exists ((k, y) :: ys), (e1 ++ e2 ++ []), (e1' ++ e2' ++ []). split_and!.
    + simpl. eapply returns_bind; [exact Hy|].
      eapply returns_bind; [exact Hys|apply returns_ret].
    + simpl. eapply returns_bind; [exact Hy'|].
      eapply returns_bind; [exact Hys'|apply returns_ret].
    + simpl in *. by rewrite Hs, Hss.
Qed.

(** The round trip on one structure, with the events of each direction. *)
Lemma map_leaf_round_trip `{!TensorLaws} v :
  dynamic_only v = true ->
  exists v' evs evs',
    returns (map_leaf input_fn v) v' evs /\
    returns (map_leaf output_fn v') v evs' /\
    skeleton_of v' = skeleton_of v.
Proof.
  induction v as [t|t|a|xs IH|xs IH|kvs IH] using pyvalue_nested_ind; intros Hdyn.
  - destruct (from_to_torch t) as (t' & Hfrom & Hto).
    exists (VFlow t'), [EvFromTorch], [EvToTorch]. split_and!; [| |done].
    + intros st. simpl. unfold bind, emit, lift, ret. simpl. by rewrite Hfrom.
    + intros st. simpl. unfold bind, emit, lift, ret. simpl. by rewrite Hto.
  - done.
  - exists (VAtom a), [], []. split_and!; [apply returns_ret|apply returns_ret|done].
  - apply dynamic_only_VTuple in Hdyn.
    destruct (map_items_round_trip xs IH Hdyn) as (ys & evs & evs' & Hys & Hys' & Hss).
    exists (VTuple ys), (evs ++ []), (evs' ++ []). split_and!.
    + rewrite map_leaf_VTuple. eapply returns_bind; [exact Hys|apply returns_ret].
    + rewrite map_leaf_VTuple. eapply returns_bind; [exact Hys'|apply returns_ret].
    + simpl. by rewrite Hss.
  - apply dynamic_only_VList in Hdyn.
    destruct (map_items_round_trip xs IH Hdyn) as (ys & evs & evs' & Hys & Hys' & Hss).
    exists (VList ys), (evs ++ []), (evs' ++ []). split_and!.
    + rewrite map_leaf_VList. eapply returns_bind; [exact Hys|apply returns_ret].
    + rewrite map_leaf_VList. eapply returns_bind; [exact Hys'|apply returns_ret].
    + simpl. by rewrite Hss.
  - apply dynamic_only_VDict in Hdyn.
    destruct (map_values_round_trip kvs IH Hdyn) as (ys & evs & evs' & Hys & Hys' & Hss).
    exists (VDict ys), (evs ++ []), (evs' ++ []). split_and!.
    + rewrite map_leaf_VDict. eapply returns_bind; [exact Hys|apply returns_ret].
    + rewrite map_leaf_VDict. eapply returns_bind; [exact Hys'|apply returns_ret].
    + rewrite !skeleton_of_VDict. by rewrite Hss.
Qed.

(** The round trip through [process_input] and [process_output] on the
    arguments of a call. *)
Lemma process_round_trip_call `{!TensorLaws} (args : list pyvalue)
    (kwargs : list (string * pyvalue)) :
  dynamic_only (VTuple args) = true ->
  dynamic_only (kwargs_to_dict kwargs) = true ->
  exists mapped_args mapped_kwargs evs evs',
    returns (process_input (args, kwargs)) (mapped_args, mapped_kwargs) evs /\
    skeleton_of mapped_args = skeleton_of (VTuple args) /\
    skeleton_of mapped_kwargs = skeleton_of (kwargs_to_dict kwargs) /\
    returns (process_output (VTuple [mapped_args; mapped_kwargs]))
      (VTuple [VTuple args; kwargs_to_dict kwargs]) evs'.
Proof.
  intros Ha Hk.
  destruct (map_leaf_round_trip (VTuple [VTuple args; kwargs_to_dict kwargs]))
    as (out & evs & evs' & Hin & Hout & Hs).
  { apply dynamic_only_VTuple. repeat constructor; done. }
  destruct out as [| | |[|a [|k [|? ?]]]| |]; try done.
  simpl in Hs. injection Hs as Hsa Hsk.
  exists a, k, evs, evs'. split_and!; auto.
  - intros st. unfold process_input, bind. simpl fst. simpl snd. rewrite Hin. done.
  - intros st. unfold process_output. rewrite map_leaf_VTuple.
    unfold bind at 1 2. cbn [map_items]. unfold bind at 1. rewrite Hout.
    simpl. unfold bind, ret, lift. simpl. done.
Qed.

(** *** What the traversal leaves alone *)

Lemma bind_world {A B} (m : M A) (k : A -> M B) st :
  st_world (snd (m st)) = st_world st ->
  (forall a st1, st_world (snd (k a st1)) = st_world st1) ->
  st_world (snd ((do x <- m; k x) st)) = st_world st.
Proof.
  intros Hm Hk. unfold bind. destruct (m st) as [[a|e] st1]; simpl in *.
  - by rewrite Hk.
  - done.
Qed.

Lemma map_leaf_world (f : pyvalue -> M pyvalue) :
  (forall x st, st_world (snd (f x st)) = st_world st) ->
  forall v st, st_world (snd (map_leaf f v st)) = st_world st.
Proof.
  intros Hf v.
  induction v as [t|t|a|xs IH|xs IH|kvs IH] using pyvalue_nested_ind; intros st;
    try apply Hf.
  - rewrite map_leaf_VTuple. apply bind_world; [|done].
    revert st. induction IH as [|x xs Hx _ IHxs]; intros st; [done|].
    simpl. apply bind_world; [apply Hx|]. intros y st1.
    apply bind_world; [apply IHxs|done].
  - rewrite map_leaf_VList. apply bind_world; [|done].
    revert st. induction IH as [|x xs Hx _ IHxs]; intros st; [done|].
    simpl. apply bind_world; [apply Hx|]. intros y st1.
    apply bind_world; [apply IHxs|done].
  - rewrite map_leaf_VDict. apply bind_world; [|done].
    revert st. induction IH as [|[k x] kvs Hx _ IHkvs]; intros st; [done|].
    simpl. apply bind_world; [apply Hx|]. intros y st1.
    apply bind_world; [apply IHkvs|done].
Qed.

Lemma map_leaf_skeleton (f : pyvalue -> M pyvalue) :
  (forall x st x' st', skeleton_of x = SLeaf -> f x st = (Returned x', st') ->
     skeleton_of x' = SLeaf) ->
  forall v st v' st', map_leaf f v st = (Returned v', st') ->
    skeleton_of v' = skeleton_of v.
Proof.
  intros Hf v.
  induction v as [t|t|a|xs IH|xs IH|kvs IH] using pyvalue_nested_ind;
    intros st v' st' Hrun; try (by eapply Hf; [|exact Hrun]).
  - rewrite map_leaf_VTuple in Hrun.
    apply bind_returned in Hrun as (ys & st1 & Hys & Hret).
    unfold ret in Hret. injection Hret as <- <-. simpl. f_equal.
    revert st ys st1 Hys. induction IH as [|x xs Hx _ IHxs]; intros st ys st1 Hys.
    + simpl in Hys. unfold ret in Hys. by injection Hys as <- <-.
    + simpl in Hys. apply bind_returned in Hys as (y & st2 & Hy & Hys).
      apply bind_returned in Hys as (r & st3 & Hr & Hret).
      unfold ret in Hret. injection Hret as <- <-. simpl.
      f_equal; [by eapply Hx|by eapply IHxs].
  - rewrite map_leaf_VList in Hrun.
    apply bind_returned in Hrun as (ys & st1 & Hys & Hret).
    unfold ret in Hret. injection Hret as <- <-. simpl. f_equal.
    revert st ys st1 Hys. induction IH as [|x xs Hx _ IHxs]; intros st ys st1 Hys.
    + simpl in Hys. unfold ret in Hys. by injection Hys as <- <-.
    + simpl in Hys. apply bind_returned in Hys as (y & st2 & Hy & Hys).
      apply bind_returned in Hys as (r & st3 & Hr & Hret).
      unfold ret in Hret. injection Hret as <- <-. simpl.
      f_equal; [by eapply Hx|by eapply IHxs].
  - rewrite map_leaf_VDict in Hrun.
    apply bind_returned in Hrun as (ys & st1 & Hys & Hret).
    unfold ret in Hret. injection Hret as <- <-. rewrite !skeleton_of_VDict. f_equal.
    revert st ys st1 Hys. induction IH as [|[k x] kvs Hx _ IHkvs]; intros st ys st1 Hys.
    + simpl in Hys. unfold ret in Hys. by injection Hys as <- <-.
    + simpl in Hys. apply bind_returned in Hys as (y & st2 & Hy & Hys).
      apply bind_returned in Hys as (r & st3 & Hr & Hret).
      unfold ret in Hret. injection Hret as <- <-. simpl.
      f_equal; [f_equal; by eapply Hx|by eapply IHkvs].
Qed.

Lemma input_fn_world x st : st_world (snd (input_fn x st)) = st_world st.
Proof.
  destruct x; try done. simpl. unfold bind, emit, lift, ret. simpl.
  by destruct (from_torch t).
Qed.

Lemma output_fn_world x st : st_world (snd (output_fn x st)) = st_world st.
Proof.
  destruct x; try done. simpl. unfold bind, emit, lift, ret. simpl.
  by destruct (to_torch t).
Qed.

Lemma input_fn_leaf x st x' st' :
  skeleton_of x = SLeaf -> input_fn x st = (Returned x', st') -> skeleton_of x' = SLeaf.
Proof.
  destruct x; try done; simpl; unfold bind, emit, lift, ret; simpl;
    try (by intros _ ?; simplify_eq).
  destruct (from_torch t); intros _ ?; by simplify_eq.
Qed.

Lemma output_fn_leaf x st x' st' :
  skeleton_of x = SLeaf -> output_fn x st = (Returned x', st') -> skeleton_of x' = SLeaf.
Proof.
  destruct x; try done; simpl; unfold bind, emit, lift, ret; simpl;
    try (by intros _ ?; simplify_eq).
  destruct (to_torch t); intros _ ?; by simplify_eq.
Qed.

(** A traversal whose function returns every leaf as it is returns the
    structure as it is, with no event. *)
Lemma map_leaf_identity (f : pyvalue -> M pyvalue) (keep : pyvalue -> bool) :
  (forall x, skeleton_of x = SLeaf -> keep x = true -> f x = ret x) ->
  (forall xs, keep (VTuple xs) = true -> Forall (fun x => keep x = true) xs) ->
  (forall xs, keep (VList xs) = true -> Forall (fun x => keep x = true) xs) ->
  (forall kvs, keep (VDict kvs) = true -> Forall (fun kv => keep (snd kv) = true) kvs) ->
  forall v st, keep v = true -> map_leaf f v st = (Returned v, st).
Proof.
  intros Hf Htu Hli Hdi v.
  induction v as [t|t|a|xs IH|xs IH|kvs IH] using pyvalue_nested_ind; intros st Hk;
    try (by simpl; rewrite Hf).
  - rewrite map_leaf_VTuple. apply Htu in Hk.
    assert (Hitems : forall st, map_items (map_leaf f) xs st = (Returned xs, st)).
    { clear st. induction xs as [|x xs IHxs]; intros st; [done|].
      apply Forall_cons in IH as [IHx IH]. apply Forall_cons in Hk as [Hx Hk].
      simpl. unfold bind. rewrite IHx by done. rewrite IHxs by done. done. }
    unfold bind. by rewrite Hitems.
  - rewrite map_leaf_VList. apply Hli in Hk.
    assert (Hitems : forall st, map_items (map_leaf f) xs st = (Returned xs, st)).
    { clear st. induction xs as [|x xs IHxs]; intros st; [done|].
      apply Forall_cons in IH as [IHx IH]. apply Forall_cons in Hk as [Hx Hk].
      simpl. unfold bind. rewrite IHx by done. rewrite IHxs by done. done. }
    unfold bind. by rewrite Hitems.
  - rewrite map_leaf_VDict. apply Hdi in Hk.
    assert (Hitems : forall st, map_values (map_leaf f) kvs st = (Returned kvs, st)).
    { clear st. induction kvs as [|[k x] kvs IHkvs]; intros st; [done|].
      apply Forall_cons in IH as [IHx IH]. apply Forall_cons in Hk as [Hx Hk].
      simpl. unfold bind. rewrite IHx by done. rewrite IHkvs by done. done. }
    unfold bind. by rewrite Hitems.
Qed.

Lemma compiled_only_VTuple xs :
  compiled_only (VTuple xs) = true -> Forall (fun x => compiled_only x = true) xs.
Proof.
  simpl. induction xs as [|x xs IH]; [constructor|].
  rewrite andb_true_iff. intros [? ?]. constructor; auto.
Qed.

Lemma compiled_only_VDict kvs :
  compiled_only (VDict kvs) = true -> Forall (fun kv => compiled_only (snd kv) = true) kvs.
Proof.
  simpl. induction kvs as [|[k x] kvs IH]; [constructor|].
  rewrite andb_true_iff. intros [? ?]. constructor; auto.
Qed.

Lemma process_output_skeleton v st v' st' :
  process_output v st = (Returned v', st') ->
  skeleton_of v' = skeleton_of v /\ st_world st' = st_world st.
Proof.
  intros Hrun. unfold process_output in Hrun.
  apply bind_returned in Hrun as (out & st1 & Hout & Hidx).
  pose proof (map_leaf_world output_fn output_fn_world (VTuple [v; VNone]) st) as Hw.
  rewrite Hout in Hw. simpl in Hw.
  apply (map_leaf_skeleton output_fn output_fn_leaf) in Hout.
  destruct out as [| | |[|x [|y [|? ?]]]| |]; try done.
  simpl in Hout. injection Hout as Hx _.
  unfold lift in Hidx. simpl in Hidx. by simplify_eq.
Qed.

Lemma process_input_skeleton args st mapped_args mapped_kwargs st' :
  process_input args st = (Returned (mapped_args, mapped_kwargs), st') ->
  skeleton_of mapped_args = skeleton_of (VTuple (fst args)) /\
  skeleton_of mapped_kwargs = skeleton_of (kwargs_to_dict (snd args)) /\
  st_world st' = st_world st.
Proof.
  intros Hrun. unfold process_input in Hrun.
  apply bind_returned in Hrun as (out & st1 & Hout & Hidx).
  pose proof (map_leaf_world input_fn input_fn_world
                (VTuple [VTuple (fst args); kwargs_to_dict (snd args)]) st) as Hw.
  rewrite Hout in Hw. simpl in Hw.
  apply (map_leaf_skeleton input_fn input_fn_leaf) in Hout.
  destruct out as [| | |[|x [|y [|? ?]]]| |]; try done.
  injection Hout as Hx Hy.
  unfold bind, lift, ret in Hidx. simpl in Hidx. by simplify_eq.
Qed.

(** C8. The two leaf functions return every value that is not a tensor of
    the framework they convert from as it is: no exception, no conversion
    (the state, trace included, is unchanged).  The traversal with either of
    them leaves the world of the runtime alone, whether it returns or
    raises; when it returns, the result has the nesting, container classes,
    keys and order of the argument; and a structure that holds no tensor of
    the source framework comes back as it is.  The same holds of
    [process_output] and [process_input].  Values are immutable in the
    embedding: the traversal builds its result and cannot write to its
    argument. *)
Theorem bridge_passes_other_leaves_through (v : pyvalue) (st : state) :
  (is_torch_tensor v = false -> input_fn v st = (Returned v, st)) /\
  (is_flow_tensor v = false -> output_fn v st = (Returned v, st)) /\
  st_world (snd (map_leaf input_fn v st)) = st_world st /\
  st_world (snd (map_leaf output_fn v st)) = st_world st /\
  (forall v' st', map_leaf input_fn v st = (Returned v', st') ->
     skeleton_of v' = skeleton_of v) /\
  (forall v' st', map_leaf output_fn v st = (Returned v', st') ->
     skeleton_of v' = skeleton_of v) /\
  (compiled_only v = true -> map_leaf input_fn v st = (Returned v, st)) /\
  (dynamic_only v = true -> map_leaf output_fn v st = (Returned v, st)) /\
  (forall v' st', process_output v st = (Returned v', st') ->
     skeleton_of v' = skeleton_of v /\ st_world st' = st_world st) /\
  (forall args mapped_args mapped_kwargs st',
     process_input args st = (Returned (mapped_args, mapped_kwargs), st') ->
     skeleton_of mapped_args = skeleton_of (VTuple (fst args)) /\
     skeleton_of mapped_kwargs = skeleton_of (kwargs_to_dict (snd args)) /\
     st_world st' = st_world st).
Proof.
  split_and!; [| | | | | | | |apply process_output_skeleton
              |intros args; apply process_input_skeleton].
  - by destruct v.
  - by destruct v.
  - apply map_leaf_world, input_fn_world.
  - apply map_leaf_world, output_fn_world.
  - intros v' st'. apply map_leaf_skeleton, input_fn_leaf.
  - intros v' st'. apply map_leaf_skeleton, output_fn_leaf.
  - apply (map_leaf_identity input_fn compiled_only).
    + by intros [] ? ?.
    + apply compiled_only_VTuple.
    + apply compiled_only_VTuple.
    + apply compiled_only_VDict.
  - apply (map_leaf_identity output_fn dynamic_only).
    + by intros [] ? ?.
    + apply dynamic_only_VTuple.
    + apply dynamic_only_VList.
    + apply dynamic_only_VDict.
Qed.

(** C7. Under the laws of the two conversions, every structure [S] of
    dynamic-framework tensors and scalars survives the round trip: passed
    to [process_input] as an argument it is converted to a structure [S']
    with the same nesting, container classes, keys and order, and
    [process_output S'] returns [S] itself, leaf for leaf.  The world of the
    runtime is left as it was. *)
Theorem bridge_round_trip `{!TensorLaws} (S : pyvalue) (st : state) :
  dynamic_only S = true ->
  exists S' st1 st2,
    process_input ([S], []) st = (Returned (VTuple [S'], VDict []), st1) /\
    skeleton_of S' = skeleton_of S /\
    process_output S' st1 = (Returned S, st2) /\
    st_world st2 = st_world st.
Proof.
  intros Hdyn.
  destruct (map_leaf_round_trip S Hdyn) as (S' & evs & evs' & Hin & Hout & Hs).
  exists S'. eexists. eexists. split_and!; [| exact Hs | |].
  - unfold process_input. simpl fst. simpl snd. unfold kwargs_to_dict. simpl map.
    rewrite map_leaf_VTuple. unfold bind at 1 2. cbn [map_items].
    rewrite map_leaf_VTuple. unfold bind at 1 2 3. cbn [map_items].
    unfold bind at 1. rewrite Hin. simpl. reflexivity.
  - unfold process_output. rewrite map_leaf_VTuple.
    unfold bind at 1 2. cbn [map_items]. unfold bind at 1. rewrite Hout.
    simpl. reflexivity.
  - reflexivity.
Qed.

(** *** The deployable module *)

(** C10. When the class the deployable module extends has no [__call__],
    calling the module returns [None]; when it has no [apply_model],
    [apply_model] returns [None].  In both cases the state is left as it
    was, trace included: no argument is converted, no graph and no method of
    the wrapped module runs, and nothing is raised. *)
Theorem missing_entry_point_returns_None
    (self : DeplayableModule) (args : call_args) (st : state) :
  (cls_call (dm_super self) = None -> call self args st = (Returned VNone, st)) /\
  (cls_apply_model (dm_super self) = None ->
   apply_model self args st = (Returned VNone, st)).
Proof.
  split; intros Hnone.
  - unfold call. by rewrite Hnone.
  - unfold apply_model. by rewrite Hnone.
Qed.

(** Without a [_dpl_graph] attribute the three graph operations of the
    module raise [AttributeError] and leave the state as it was. *)
Lemma graph_operations_without_graph (self : DeplayableModule) :
  get_dpl_graph self = Raised AttributeError ->
  (forall file_path st, save_graph self file_path st = (Raised AttributeError, st)) /\
  (forall file_path device st,
     load_graph self file_path device st = (Raised AttributeError, st)) /\
  (forall file_path device st,
     warmup_with_load self file_path device st = (Raised AttributeError, st)).
Proof.
  intros Hget. split_and!; intros; unfold save_graph, load_graph, warmup_with_load,
    bind, lift; by rewrite Hget.
Qed.

(** C9. [oneflow_compile] with [use_graph=False], on a module whose
    conversion carries no [_dpl_graph] attribute of its own, returns a
    module and leaves the state as it was: no graph is constructed.  The
    module has no [_dpl_graph] attribute, and [save_graph], [load_graph] and
    [warmup_with_load] raise [AttributeError] on it without reaching the
    runtime. *)
Theorem eager_module_has_no_graph
    (torch_unet : TorchModule) (options : gmap string Z)
    (of_md : ConvertedModule World) (st : state) :
  torch2of torch_unet = Returned of_md ->
  md_attrs of_md !! "_dpl_graph"%string = None ->
  cls_attrs (md_class of_md) !! "_dpl_graph"%string = None ->
  exists m,
    oneflow_compile torch_unet false options st = (Returned m, st) /\
    dm_use_graph m = false /\
    dm_attrs m !! "_dpl_graph"%string = None /\
    get_dpl_graph m = Raised AttributeError /\
    (forall file_path st', save_graph m file_path st' = (Raised AttributeError, st')) /\
    (forall file_path device st',
       load_graph m file_path device st' = (Raised AttributeError, st')) /\
    (forall file_path device st',
       warmup_with_load m file_path device st' = (Raised AttributeError, st')).
Proof.
  intros Hconv Hinst Hcls.
  eexists. split.
  { unfold oneflow_compile, bind, lift, ret. rewrite Hconv. reflexivity. }
  simpl.
  assert (Hattr : (AttrValue <$> md_attrs of_md) !! "_dpl_graph"%string = None).
  { by rewrite lookup_fmap, Hinst. }
  set (m := {| dm_super := md_class of_md; dm_use_graph := false;
               dm_attrs := AttrValue <$> md_attrs of_md |}).
  assert (Hget : get_dpl_graph m = Raised AttributeError).
  { unfold get_dpl_graph, m. simpl. by rewrite Hattr, Hcls. }
  split_and!; auto; by apply graph_operations_without_graph.
Qed.

(** C5, amended. [save_graph] of the wrapper checks nothing itself: on any
    graph, run before or not, it asks the runtime for the runtime state and
    hands it to [flow.save].  It raises exactly the exception one of these
    two calls raises, it returns when both return, and the [save_graph] of a
    deployable module that holds the graph does the same. *)
Theorem save_graph_defers_to_runtime (g : UNetGraph) (file_path : string) (st : state) :
  (forall e,
     fst (UNetGraph_save_graph g file_path st) = Raised e <->
     fst (runtime_state_dict (ug_handle g) (st_world st)) = Raised e \/
     exists sd w1,
       runtime_state_dict (ug_handle g) (st_world st) = (Returned sd, w1) /\
       fst (flow_save sd file_path w1) = Raised e) /\
  (forall sd w1 w2,
     runtime_state_dict (ug_handle g) (st_world st) = (Returned sd, w1) ->
     flow_save sd file_path w1 = (Returned (), w2) ->
     UNetGraph_save_graph g file_path st =
       (Returned (),
        {| st_world := w2;
           st_trace := st_trace st ++ [EvRuntimeStateDict; EvFlowSave file_path] |})) /\
  (forall self,
     dm_attrs self !! "_dpl_graph"%string = Some (AttrGraph g) ->
     save_graph self file_path st = UNetGraph_save_graph g file_path st).
Proof.
  split_and!.
  - intros e. unfold UNetGraph_save_graph, bind, external.
    destruct (runtime_state_dict (ug_handle g) (st_world st)) as [[sd|e1] w1] eqn:Hsd;
      simpl.
    + destruct (flow_save sd file_path w1) as [r w2] eqn:Hsave. simpl. split.
      * intros ->. right. exists sd, w1. by rewrite Hsave.
      * intros [?|(sd' & w1' & ? & Hr)]; [done|]. simplify_eq.
        by rewrite Hsave in Hr.
    + split; [intros He; simplify_eq; by left|].
      intros [He|(sd' & w1' & He & _)]; by simplify_eq.
  - intros sd w1 w2 Hsd Hsave. unfold UNetGraph_save_graph, bind, external.
    rewrite Hsd. simpl. rewrite Hsave. by rewrite <- app_assoc.
  - intros self Hattr. unfold save_graph, get_dpl_graph, bind, lift.
    by rewrite Hattr.
Qed.

(** *** Graph mode against eager mode *)

Lemma external_fst {A} ev (op : World -> outcome A * World) s :
  fst (external ev op s) = fst (op (st_world s)).
Proof. unfold external. by destruct (op (st_world s)). Qed.

Lemma close_bind {A B} (RA : A -> A -> Prop) (RB : B -> B -> Prop)
    (m m' : M A) (k k' : A -> M B) st st' :
  close_outcome RA (fst (m st)) (fst (m' st')) ->
  (forall a a' s s', RA a a' -> close_outcome RB (fst (k a s)) (fst (k' a' s'))) ->
  close_outcome RB (fst ((do x <- m; k x) st)) (fst ((do x <- m'; k' x) st')).
Proof.
  intros Hm Hk. unfold bind.
  destruct (m st) as [[a|e] s1], (m' st') as [[a'|e'] s1']; simpl in *; auto; done.
Qed.

Lemma close_outcome_eq {A} (o o' : outcome A) : close_outcome eq o o' <-> o = o'.
Proof. destruct o, o'; simpl; split; intros; by simplify_eq. Qed.

(** The value the traversal returns does not depend on the state it starts
    from, when that holds of the function applied to the leaves. *)
Lemma map_leaf_fst (f : pyvalue -> M pyvalue) :
  (forall x st st', fst (f x st) = fst (f x st')) ->
  forall v st st', fst (map_leaf f v st) = fst (map_leaf f v st').
Proof.
  intros Hf v.
  induction v as [t|t|a|xs IH|xs IH|kvs IH] using pyvalue_nested_ind; intros st st';
    try apply Hf.
  - rewrite map_leaf_VTuple. apply close_outcome_eq.
    apply (close_bind eq); [|by intros ys ? s s' <-].
    apply close_outcome_eq. revert st st'.
    induction IH as [|x xs Hx _ IHxs]; intros st st'; [done|].
    simpl. apply close_outcome_eq.
    apply (close_bind eq); [apply close_outcome_eq, Hx|]. intros y ? s s' <-.
    apply (close_bind eq); [apply close_outcome_eq, IHxs|]. by intros r ? s1 s1' <-.
  - rewrite map_leaf_VList. apply close_outcome_eq.
    apply (close_bind eq); [|by intros ys ? s s' <-].
    apply close_outcome_eq. revert st st'.
    induction IH as [|x xs Hx _ IHxs]; intros st st'; [done|].
    simpl. apply close_outcome_eq.
    apply (close_bind eq); [apply close_outcome_eq, Hx|]. intros y ? s s' <-.
    apply (close_bind eq); [apply close_outcome_eq, IHxs|]. by intros r ? s1 s1' <-.
  - rewrite map_leaf_VDict. apply close_outcome_eq.
    apply (close_bind eq); [|by intros ys ? s s' <-].
    apply close_outcome_eq. revert st st'.
    induction IH as [|[k x] kvs Hx _ IHkvs]; intros st st'; [done|].
    simpl. apply close_outcome_eq.
    apply (close_bind eq); [apply close_outcome_eq, Hx|]. intros y ? s s' <-.
    apply (close_bind eq); [apply close_outcome_eq, IHkvs|]. by intros r ? s1 s1' <-.
Qed.

Lemma process_input_fst args st st' :
  fst (process_input args st) = fst (process_input args st').
Proof.
  unfold process_input. apply close_outcome_eq.
  apply (close_bind eq).
  - apply close_outcome_eq, map_leaf_fst. intros [] s s'; try done.
    simpl. unfold bind, emit, lift, ret. simpl. by destruct (from_torch t).
  - intros out ? s s' <-. apply close_outcome_eq.
    unfold bind, lift, ret. by destruct (py_index out 0), (py_index out 1).
Qed.

Section Transparency.
Variable close_torch : TorchTensor -> TorchTensor -> Prop.
Variable close_flow : FlowTensor -> FlowTensor -> Prop.

(** The conversion back maps close tensors to close tensors. *)
Hypothesis to_torch_close :
  forall t t', close_flow t t' -> close_outcome close_torch (to_torch t) (to_torch t').

Abbreviation close := (close_value close_torch close_flow).

Lemma map_items_output_close xs :
  Forall (fun x => forall x' st st', close x x' ->
    close_outcome close (fst (map_leaf output_fn x st)) (fst (map_leaf output_fn x' st'))) xs ->
  forall ys st st', Forall2 close xs ys ->
    close_outcome (Forall2 close)
      (fst (map_items (map_leaf output_fn) xs st))
      (fst (map_items (map_leaf output_fn) ys st')).
Proof.
  induction 1 as [|x xs Hx _ IHxs]; intros ys st st' Hall.
  - apply Forall2_nil_inv_l in Hall as ->. simpl. constructor.
  - apply Forall2_cons_inv_l in Hall as (y & ys' & Hxy & Hall & ->). simpl.
    apply (close_bind close); [by apply Hx|]. intros a a' s s' Ha.
    apply (close_bind (Forall2 close)); [by apply IHxs|]. intros r r' s1 s1' Hr.
    simpl. by constructor.
Qed.

Lemma map_values_output_close kvs :
  Forall (fun kv => forall x' st st', close (snd kv) x' ->
    close_outcome close (fst (map_leaf output_fn (snd kv) st))
      (fst (map_leaf output_fn x' st'))) kvs ->
  forall kvs' st st',
    Forall2 (fun x y => fst x = fst y /\ close (snd x) (snd y)) kvs kvs' ->
    close_outcome (Forall2 (fun x y => fst x = fst y /\ close (snd x) (snd y)))
      (fst (map_values (map_leaf output_fn) kvs st))
      (fst (map_values (map_leaf output_fn) kvs' st')).
Proof.
  induction 1 as [|[k x] kvs Hx _ IHkvs]; intros kvs' st st' Hall.
  - apply Forall2_nil_inv_l in Hall as ->. simpl. constructor.
  - apply Forall2_cons_inv_l in Hall as ([k' y] & ys' & [Hk Hxy] & Hall & ->).
    simpl in *. subst k'.
    apply (close_bind close); [by apply Hx|]. intros a a' s s' Ha.
    apply (close_bind (Forall2 (fun x y => fst x = fst y /\ close (snd x) (snd y))));
      [by apply IHkvs|].
    intros r r' s1 s1' Hr. simpl. by constructor.
Qed.

(** Converting close outputs gives close results. *)
Lemma map_leaf_output_close v :
  forall v' st st', close v v' ->
    close_outcome close (fst (map_leaf output_fn v st)) (fst (map_leaf output_fn v' st')).
Proof.
  induction v as [t|t|a|xs IH|xs IH|kvs IH] using pyvalue_nested_ind;
    intros v' st st' Hc; inversion Hc; subst.
  - simpl. by constructor.
  - simpl. unfold bind, emit, lift, ret. simpl.
    match goal with Hcl : close_flow _ _ |- _ => apply to_torch_close in Hcl end.
    destruct (to_torch t), (to_torch t'); simpl in *; try done. by constructor.
  - simpl. constructor.
  - rewrite !map_leaf_VTuple.
    apply (close_bind (Forall2 close)); [by apply map_items_output_close|].
    intros r r' s s' Hr. simpl. by constructor.
  - rewrite !map_leaf_VList.
    apply (close_bind (Forall2 close)); [by apply map_items_output_close|].
    intros r r' s s' Hr. simpl. by constructor.
  - rewrite !map_leaf_VDict.
    apply (close_bind (Forall2 (fun x y => fst x = fst y /\ close (snd x) (snd y))));
      [by apply map_values_output_close|].
    intros r r' s s' Hr. simpl. by constructor.
Qed.

Lemma process_output_close v v' st st' :
  close v v' ->
  close_outcome close (fst (process_output v st)) (fst (process_output v' st')).
Proof.
  intros Hc. unfold process_output.
  apply (close_bind close).
  - apply map_leaf_output_close. constructor. repeat constructor. exact Hc.
  - intros out out' s s' Hout. unfold lift. simpl.
    inversion Hout as [| | |xs ys Hall|xs ys Hall|]; subst; simpl; try done;
      destruct Hall; simpl; done.
Qed.

(** C6. Let [oneflow_compile] return [m_graph] with [use_graph=True] and
    [m_eager] with [use_graph=False] for the same module.  If the compiled
    run of the graph and the eager call of the wrapped module agree up to
    the tolerance, whatever the state of the runtime, then calling
    [m_graph] and calling [m_eager] on the same arguments end alike: both
    raise the same exception or both return, with values of the same
    structure whose tensors agree up to the tolerance.  The flag is the one
    given to [oneflow_compile]; no method of the module changes it, and both
    modules extend the same class. *)
Theorem graph_mode_is_transparent
    (torch_unet : TorchModule) (options : gmap string Z) (st : state)
    (m_graph m_eager : DeplayableModule) (st_graph st_eager : state) :
  oneflow_compile torch_unet true options st = (Returned m_graph, st_graph) ->
  oneflow_compile torch_unet false options st = (Returned m_eager, st_eager) ->
  (forall g forward a w w',
     get_dpl_graph m_graph = Returned (AttrGraph g) ->
     cls_call (dm_super m_eager) = Some forward ->
     close_outcome close
       (fst (graph_call (ug_handle g) (UNetGraph_build g) a w)) (fst (forward a w'))) ->
  dm_use_graph m_graph = true /\
  dm_use_graph m_eager = false /\
  dm_super m_graph = dm_super m_eager /\
  forall args s1 s2,
    close_outcome close (fst (call m_graph args s1)) (fst (call m_eager args s2)).
Proof.
  intros Hg He Hpaths.
  unfold oneflow_compile, bind, lift, ret in Hg, He.
  destruct (torch2of torch_unet) as [of_md|e]; [|done].
  unfold get_unet_graph, bind, external, ret in Hg.
  destruct (graph_init _ (st_world st)) as [[h|e] w1]; simpl in Hg; [|done].
  injection Hg as <- <-. injection He as <- <-.
  set (g := {| ug_handle := h; ug_unet := of_md |}) in *.
  split_and!; try reflexivity.
  intros args s1 s2. unfold call. simpl.
  destruct (cls_call (md_class of_md)) as [forward|] eqn:Hfw; [|simpl; constructor].
  apply (close_bind eq); [apply close_outcome_eq, process_input_fst|].
  intros [ma mk] ? s s' <-.
  apply (close_bind close); [|intros; by apply process_output_close].
  unfold call_dpl_graph, call_super, get_dpl_graph, bind, lift. simpl.
  rewrite lookup_insert_eq.
  destruct (unpack_call ma mk) as [a|e]; simpl; [|done].
  unfold UNetGraph_call. rewrite !external_fst.
  apply (Hpaths g forward); [|exact Hfw].
  unfold get_dpl_graph. simpl. by rewrite lookup_insert_eq.
Qed.

End Transparency.

End CompileFacts.

(** ** The bridge and the deployable module, through their traces *)
Section CompileTraces.
Context `{RT : Runtime}.

Lemma count_torch_VDict kvs :
  count_torch (VDict kvs) = sum_list (map (fun kv => count_torch (snd kv)) kvs).
Proof. simpl. induction kvs as [|[k x] kvs IH]; [done|]. simpl. by rewrite IH. Qed.

Lemma count_flow_VDict kvs :
  count_flow (VDict kvs) = sum_list (map (fun kv => count_flow (snd kv)) kvs).
Proof. simpl. induction kvs as [|[k x] kvs IH]; [done|]. simpl. by rewrite IH. Qed.

Lemma compiled_only_VTuple_of xs :
  Forall (fun x => compiled_only x = true) xs -> compiled_only (VTuple xs) = true.
Proof.
  simpl. induction 1 as [|x xs Hx _ IH]; [done|]. by rewrite Hx, IH.
Qed.

Lemma compiled_only_VList_of xs :
  Forall (fun x => compiled_only x = true) xs -> compiled_only (VList xs) = true.
Proof. apply compiled_only_VTuple_of. Qed.

Lemma compiled_only_VDict_of kvs :
  Forall (fun kv => compiled_only (snd kv) = true) kvs -> compiled_only (VDict kvs) = true.
Proof.
  simpl. induction 1 as [|[k x] kvs Hx _ IH]; [done|]. simpl in Hx. by rewrite Hx, IH.
Qed.

Lemma records_ret {A} (a : A) st ev (good : A -> Prop) :
  good a -> records (ret a) st ev 0 good.
Proof.
  intros Hg. exists 0%nat. simpl. rewrite app_nil_r.
  split; [done|]. split; [done|]. by intros ? [= <-].
Qed.

Lemma records_bind {A B} (m : M A) (k : A -> M B) st ev (b1 b2 b : nat)
    (goodA : A -> Prop) (goodB : B -> Prop) :
  b = (b1 + b2)%nat ->
  records m st ev b1 goodA ->
  (forall a st1, goodA a -> m st = (Returned a, st1) -> records (k a) st1 ev b2 goodB) ->
  records (do x <- m; k x) st ev b goodB.
Proof.
  intros -> (n1 & Htr & Hle & Hret) Hk. unfold records, bind.
  destruct (m st) as [[a|e] st1] eqn:Hm; simpl in *.
  - destruct (Hret a eq_refl) as [Hg ->].
    destruct (Hk a st1 Hg eq_refl) as (n2 & Htr2 & Hle2 & Hret2).
    exists (b1 + n2)%nat. rewrite Htr2, Htr, replicate_add, app_assoc.
    split; [done|]. split; [lia|]. intros y Hy.
    destruct (Hret2 y Hy) as [? ->]. done.
  - exists n1. split; [done|]. split; [lia|]. by intros ? [=].
Qed.

Lemma records_lift {A} (o : outcome A) st ev (good : A -> Prop) :
  (forall a, o = Returned a -> good a) -> records (lift o) st ev 0 good.
Proof.
  intros Hg. exists 0%nat. unfold lift. simpl. rewrite app_nil_r.
  split; [done|]. split; [done|]. intros a ->. split; [by apply Hg|done].
Qed.

Lemma records_map_items (f : pyvalue -> M pyvalue) ev (cnt : pyvalue -> nat)
    (good : pyvalue -> bool) xs :
  Forall (fun x => forall st,
            records (map_leaf f x) st ev (cnt x) (fun y => good y = true)) xs ->
  forall st, records (map_items (map_leaf f) xs) st ev (sum_list (map cnt xs))
               (Forall (fun y => good y = true)).
Proof.
  induction 1 as [|x xs Hx _ IH]; intros st.
  - apply records_ret. constructor.
  - simpl.
    apply (records_bind _ _ _ _ (cnt x) (sum_list (map cnt xs)) _
             (fun y => good y = true)); [done|apply Hx|].
    intros y st1 Hy _.
    apply (records_bind _ _ _ _ (sum_list (map cnt xs)) 0%nat _
             (Forall (fun y => good y = true))); [lia|apply IH|].
    intros r st2 Hr _. apply records_ret. by constructor.
Qed.

Lemma records_map_values (f : pyvalue -> M pyvalue) ev (cnt : pyvalue -> nat)
    (good : pyvalue -> bool) kvs :
  Forall (fun kv => forall st,
            records (map_leaf f (snd kv)) st ev (cnt (snd kv))
              (fun y => good y = true)) kvs ->
  forall st, records (map_values (map_leaf f) kvs) st ev
               (sum_list (map (fun kv => cnt (snd kv)) kvs))
               (Forall (fun kv => good (snd kv) = true)).
Proof.
  induction 1 as [|[k x] kvs Hx _ IH]; intros st.
  - apply records_ret. constructor.
  - simpl.
    apply (records_bind _ _ _ _ (cnt x) (sum_list (map (fun kv => cnt (snd kv)) kvs)) _
             (fun y => good y = true)); [done|apply Hx|].
    intros y st1 Hy _.
    apply (records_bind _ _ _ _ (sum_list (map (fun kv => cnt (snd kv)) kvs)) 0%nat _
             (Forall (fun kv => good (snd kv) = true))); [lia|apply IH|].
    intros r st2 Hr _. apply records_ret. by constructor.
Qed.

(** A traversal records what its function records on the leaves. *)
Lemma records_map_leaf (f : pyvalue -> M pyvalue) ev (cnt : pyvalue -> nat)
    (good : pyvalue -> bool) :
  (forall x st, skeleton_of x = SLeaf ->
     records (f x) st ev (cnt x) (fun y => good y = true)) ->
  (forall xs, cnt (VTuple xs) = sum_list (map cnt xs)) ->
  (forall xs, cnt (VList xs) = sum_list (map cnt xs)) ->
  (forall kvs, cnt (VDict kvs) = sum_list (map (fun kv => cnt (snd kv)) kvs)) ->
  (forall xs, Forall (fun x => good x = true) xs -> good (VTuple xs) = true) ->
  (forall xs, Forall (fun x => good x = true) xs -> good (VList xs) = true) ->
  (forall kvs, Forall (fun kv => good (snd kv) = true) kvs -> good (VDict kvs) = true) ->
  forall v st, records (map_leaf f v) st ev (cnt v) (fun y => good y = true).
Proof.
  intros Hf Hctu Hcli Hcdi Hgtu Hgli Hgdi v.
  induction v as [t|t|a|xs IH|xs IH|kvs IH] using pyvalue_nested_ind; intros st;
    try (by apply Hf).
  - rewrite map_leaf_VTuple, Hctu.
    apply (records_bind _ _ _ _ (sum_list (map cnt xs)) 0%nat _
             (Forall (fun y => good y = true)));
      [lia|by apply records_map_items|].
    intros ys st1 Hys _. apply records_ret. by apply Hgtu.
  - rewrite map_leaf_VList, Hcli.
    apply (records_bind _ _ _ _ (sum_list (map cnt xs)) 0%nat _
             (Forall (fun y => good y = true)));
      [lia|by apply records_map_items|].
    intros ys st1 Hys _. apply records_ret. by apply Hgli.
  - rewrite map_leaf_VDict, Hcdi.
    apply (records_bind _ _ _ _ (sum_list (map (fun kv => cnt (snd kv)) kvs)) 0%nat _
             (Forall (fun kv => good (snd kv) = true)));
      [lia|by apply records_map_values|].
    intros ys st1 Hys _. apply records_ret. by apply Hgdi.
Qed.

Lemma records_input_fn x st :
  skeleton_of x = SLeaf ->
  records (input_fn x) st EvFromTorch (count_torch x) (fun y => compiled_only y = true).
Proof.
  destruct x as [t|t|a|xs|xs|kvs]; try done; intros _.
  - unfold records, input_fn, bind, emit, lift, ret. simpl.
    exists 1%nat. destruct (from_torch t) as [t'|e]; simpl.
    + split; [done|]. split; [done|]. by intros ? [= <-].
    + split; [done|]. split; [done|]. by intros ? [=].
  - by apply records_ret.
  - by apply records_ret.
Qed.

Lemma records_output_fn x st :
  skeleton_of x = SLeaf ->
  records (output_fn x) st EvToTorch (count_flow x) (fun y => dynamic_only y = true).
Proof.
  destruct x as [t|t|a|xs|xs|kvs]; try done; intros _.
  - by apply records_ret.
  - unfold records, output_fn, bind, emit, lift, ret. simpl.
    exists 1%nat. destruct (to_torch t) as [t'|e]; simpl.
    + split; [done|]. split; [done|]. by intros ? [= <-].
    + split; [done|]. split; [done|]. by intros ? [=].
  - by apply records_ret.
Qed.

Lemma records_map_leaf_input v st :
  records (map_leaf input_fn v) st EvFromTorch (count_torch v)
    (fun y => compiled_only y = true).
Proof.
  apply (records_map_leaf input_fn EvFromTorch count_torch compiled_only);
    auto using records_input_fn, count_torch_VDict, compiled_only_VTuple_of,
      compiled_only_VList_of, compiled_only_VDict_of.
Qed.

Lemma records_map_leaf_output v st :
  records (map_leaf output_fn v) st EvToTorch (count_flow v)
    (fun y => dynamic_only y = true).
Proof.
  apply (records_map_leaf output_fn EvToTorch count_flow dynamic_only);
    auto using records_output_fn, count_flow_VDict.
  - intros xs. apply dynamic_only_VTuple.
  - intros xs. apply dynamic_only_VList.
  - intros kvs. apply dynamic_only_VDict.
Qed.

Lemma py_index_elem (v x : pyvalue) i :
  py_index v i = Returned x -> exists xs, (v = VTuple xs \/ v = VList xs) /\ xs !! i = Some x.
Proof.
  destruct v as [t|t|a|xs|xs|kvs]; simpl; try done.
  - destruct (xs !! i) eqn:E; [|done]. intros [= <-]. eauto.
  - destruct (xs !! i) eqn:E; [|done]. intros [= <-]. eauto.
Qed.

Lemma records_process_input args st :
  records (process_input args) st EvFromTorch
    (count_torch (VTuple (fst args)) + count_torch (kwargs_to_dict (snd args)))
    (fun r => compiled_only (fst r) = true /\ compiled_only (snd r) = true).
Proof.
  unfold process_input.
  apply (records_bind _ _ _ _
           (count_torch (VTuple [VTuple (fst args); kwargs_to_dict (snd args)])) 0%nat _
           (fun y => compiled_only y = true));
    [simpl; lia|apply records_map_leaf_input|].
  intros out st1 Hout _.
  apply (records_bind _ _ _ _ 0%nat 0%nat _
           (fun y => compiled_only y = true)); [done| |].
  { apply records_lift. intros a Ha.
    apply py_index_elem in Ha as (xs & [-> | ->] & Hx);
      apply compiled_only_VTuple in Hout;
      by apply (Forall_lookup_1 _ _ _ _ Hout Hx). }
  intros a st2 Ha _.
  apply (records_bind _ _ _ _ 0%nat 0%nat _
           (fun y => compiled_only y = true)); [done| |].
  { apply records_lift. intros k Hk.
    apply py_index_elem in Hk as (xs & [-> | ->] & Hx);
      apply compiled_only_VTuple in Hout;
      by apply (Forall_lookup_1 _ _ _ _ Hout Hx). }
  intros k st3 Hk _. by apply records_ret.
Qed.

Lemma records_process_output v st :
  records (process_output v) st EvToTorch (count_flow v)
    (fun y => dynamic_only y = true).
Proof.
  unfold process_output.
  apply (records_bind _ _ _ _ (count_flow (VTuple [v; VNone])) 0%nat _
           (fun y => dynamic_only y = true));
    [simpl; lia|apply records_map_leaf_output|].
  intros out st1 Hout _.
  apply records_lift. intros a Ha.
  apply py_index_elem in Ha as (xs & [-> | ->] & Hx).
  - apply dynamic_only_VTuple in Hout. by apply (Forall_lookup_1 _ _ _ _ Hout Hx).
  - apply dynamic_only_VList in Hout. by apply (Forall_lookup_1 _ _ _ _ Hout Hx).
Qed.

(** X13. [process_input] converts each tensor of the dynamic framework among the
    positional and keyword arguments exactly once and does nothing else:
    when it returns, the trace has grown by one [from_torch] per such tensor
    and no tensor of the dynamic framework is left in the mapped arguments;
    when a conversion fails, by at most that many. *)
Theorem process_input_converts_each_torch_tensor_once (args : call_args) (st : state) :
  exists n : nat,
    st_trace (snd (process_input args st)) = st_trace st ++ replicate n EvFromTorch /\
    (n <= count_torch (VTuple (fst args)) + count_torch (kwargs_to_dict (snd args)))%nat /\
    forall mapped_args mapped_kwargs,
      fst (process_input args st) = Returned (mapped_args, mapped_kwargs) ->
      n = (count_torch (VTuple (fst args)) + count_torch (kwargs_to_dict (snd args)))%nat /\
      compiled_only mapped_args = true /\
      compiled_only mapped_kwargs = true.
Proof.
  destruct (records_process_input args st) as (n & Htr & Hle & Hret).
  exists n. split; [done|]. split; [done|].
  intros a k Hr. destruct (Hret _ Hr) as [[Ha Hk] ->]. done.
Qed.

(** X14. [process_output] converts each tensor of the compiled framework in the
    output exactly once and does nothing else: when it returns, the trace
    has grown by one [to_torch] per such tensor and the result holds no
    tensor of the compiled framework. *)
Theorem process_output_converts_each_flow_tensor_once (output : pyvalue) (st : state) :
  exists n : nat,
    st_trace (snd (process_output output st)) = st_trace st ++ replicate n EvToTorch /\
    (n <= count_flow output)%nat /\
    forall v,
      fst (process_output output st) = Returned v ->
      n = count_flow output /\ dynamic_only v = true.
Proof.
  destruct (records_process_output output st) as (n & Htr & Hle & Hret).
  exists n. split; [done|]. split; [done|].
  intros v Hr. destruct (Hret _ Hr) as [Hv ->]. done.
Qed.

Lemma process_input_world args st :
  st_world (snd (process_input args st)) = st_world st.
Proof.
  unfold process_input. apply bind_world.
  - apply map_leaf_world, input_fn_world.
  - intros out st1. unfold bind, lift, ret.
    by destruct (py_index out 0), (py_index out 1).
Qed.

Lemma call_dpl_graph_trace self a k st out st' :
  call_dpl_graph self a k st = (Returned out, st') ->
  st_trace st' = st_trace st ++ [EvGraphCall].
Proof.
  unfold call_dpl_graph, bind, lift, raise. simpl.
  destruct (get_dpl_graph self) as [[g|v]|]; try done;
    destruct (unpack_call a k) as [c|]; try done.
  unfold UNetGraph_call, external.
  destruct (graph_call _ _ _ _) as [r w]. by intros [= -> <-].
Qed.

Lemma call_super_trace name (m : method World) a k st out st' :
  call_super name m a k st = (Returned out, st') ->
  st_trace st' = st_trace st ++ [EvSuperCall name].
Proof.
  unfold call_super, bind, lift. simpl.
  destruct (unpack_call a k) as [c|]; try done.
  unfold external. destruct (m c _) as [r w]. by intros [= -> <-].
Qed.

(** The body [__call__] and [apply_model] share, for the method [name] of
    the base class. *)
Lemma entry_point_trace self name (super_m : method World) args st v st' :
  (do '(mapped_args, mapped_kwargs) <- process_input args;
   do output <-
     (if dm_use_graph self then call_dpl_graph self mapped_args mapped_kwargs
      else call_super name super_m mapped_args mapped_kwargs);
   process_output output) st = (Returned v, st') ->
  dynamic_only v = true /\
  exists output,
    skeleton_of v = skeleton_of output /\
    st_trace st' =
      st_trace st
      ++ replicate (count_torch (VTuple (fst args))
                    + count_torch (kwargs_to_dict (snd args))) EvFromTorch
      ++ [computation_event (dm_use_graph self) name]
      ++ replicate (count_flow output) EvToTorch.
Proof.
  intros Hrun.
  apply bind_returned in Hrun as ([a k] & st1 & Hin & Hrun).
  apply bind_returned in Hrun as (output & st2 & Hmid & Hout).
  destruct (records_process_input args st) as (n & Htr1 & _ & Hret1).
  rewrite Hin in Htr1, Hret1. simpl in Htr1.
  destruct (Hret1 _ eq_refl) as [_ ->].
  destruct (records_process_output output st2) as (m & Htr3 & _ & Hret3).
  rewrite Hout in Htr3, Hret3. simpl in Htr3.
  destruct (Hret3 _ eq_refl) as [Hdyn ->].
  assert (Htr2 : st_trace st2
                 = st_trace st1 ++ [computation_event (dm_use_graph self) name]).
  { unfold computation_event. destruct (dm_use_graph self).
    - by eapply call_dpl_graph_trace.
    - by eapply call_super_trace. }
  split; [done|]. exists output. split.
  - by apply process_output_skeleton in Hout as [? _].
  - rewrite Htr3, Htr2, Htr1. by rewrite <- !app_assoc.
Qed.

(** X15. A call of the deployable module that returns did three things, in
    this order: it converted each tensor of the dynamic framework among the
    arguments once, it ran the computation exactly once (the graph in graph
    mode, [__call__] of the base class otherwise), and it converted each
    tensor of the compiled framework in the output once.  The result has the
    structure of that output and holds no tensor of the compiled
    framework. *)
Theorem call_runs_the_computation_once (self : DeplayableModule) (args : call_args)
    (forward : method World) (st st' : state) (v : pyvalue) :
  cls_call (dm_super self) = Some forward ->
  call self args st = (Returned v, st') ->
  dynamic_only v = true /\
  exists output,
    skeleton_of v = skeleton_of output /\
    st_trace st' =
      st_trace st
      ++ replicate (count_torch (VTuple (fst args))
                    + count_torch (kwargs_to_dict (snd args))) EvFromTorch
      ++ [computation_event (dm_use_graph self) "__call__"]
      ++ replicate (count_flow output) EvToTorch.
Proof.
  intros Hcls Hrun. unfold call in Hrun. rewrite Hcls in Hrun.
  by apply (entry_point_trace self "__call__" forward args st v st').
Qed.

(** X16. In graph mode [apply_model] never reaches [apply_model] of the base
    class: once the base class has both entry points, it does what
    [__call__] does, on every argument and from every state, and so runs
    the graph, whose [build] is the [__call__] of the bound module. *)
Theorem apply_model_runs_the_graph_of_call (self : DeplayableModule)
    (args : call_args) (st : state) :
  dm_use_graph self = true ->
  is_Some (cls_call (dm_super self)) ->
  is_Some (cls_apply_model (dm_super self)) ->
  apply_model self args st = call self args st.
Proof.
  intros Hg [f Hf] [g Hgm]. unfold apply_model, call.
  rewrite Hf, Hgm, Hg. reflexivity.
Qed.

(** X17. When the conversion of an argument fails, the call raises that
    exception and neither the graph nor the module has run: the world of the
    runtime is as before and the trace has grown by conversions only. *)
Theorem failed_conversion_stops_the_call (self : DeplayableModule) (args : call_args)
    (forward : method World) (st : state) (e : pyexn) :
  cls_call (dm_super self) = Some forward ->
  fst (process_input args st) = Raised e ->
  fst (call self args st) = Raised e /\
  st_world (snd (call self args st)) = st_world st /\
  exists n : nat,
    st_trace (snd (call self args st)) = st_trace st ++ replicate n EvFromTorch.
Proof.
  intros Hcls Hin. unfold call. rewrite Hcls.
  pose proof (process_input_world args st) as Hw.
  destruct (records_process_input args st) as (n & Htr & _ & _).
  unfold bind. destruct (process_input args st) as [[r|e'] st1]; simpl in *; [done|].
  injection Hin as ->. split; [done|]. split; [done|]. by exists n.
Qed.

Lemma dict_to_kwargs_of_skeleton (kvs : list (atom * pyvalue))
    (kwargs : list (string * pyvalue)) :
  map (fun kv => (fst kv, skeleton_of (snd kv))) kvs
  = map (fun kv => (fst kv, skeleton_of (snd kv)))
      (map (fun kv => (AStr (fst kv), snd kv)) kwargs) ->
  exists kw, dict_to_kwargs kvs = Returned kw /\ map fst kw = map fst kwargs.
Proof.
  revert kvs. induction kwargs as [|[k0 v0] kwargs IH]; intros [|[k x] kvs] Heq;
    try done.
  - by exists [].
  - simpl in Heq. injection Heq as -> _ Heq.
    destruct (IH kvs Heq) as (kw & Hkw & Hkeys).
    exists ((k0, x) :: kw). simpl. rewrite Hkw. simpl. by rewrite Hkeys.
Qed.

(** X18. The mapped arguments always unpack: what [process_input] returns is
    a tuple with one item per positional argument and a mapping with the
    keyword names, in order, so the call of the graph or of the module is
    made with as many positional arguments and the same keywords. *)
Theorem mapped_arguments_unpack (args : call_args) (st st' : state)
    (mapped_args mapped_kwargs : pyvalue) :
  process_input args st = (Returned (mapped_args, mapped_kwargs), st') ->
  exists xs kw,
    mapped_args = VTuple xs /\
    unpack_call mapped_args mapped_kwargs = Returned (xs, kw) /\
    length xs = length (fst args) /\
    map fst kw = map fst (snd args).
Proof.
  intros Hrun. apply process_input_skeleton in Hrun as (Ha & Hk & _).
  destruct mapped_args as [| | |xs| |]; try done.
  unfold kwargs_to_dict in Hk.
  destruct mapped_kwargs as [| | | | |kvs]; try done.
  rewrite !skeleton_of_VDict in Hk. injection Hk as Hk.
  destruct (dict_to_kwargs_of_skeleton kvs (snd args) Hk) as (kw & Hkw & Hkeys).
  exists xs, kw. split; [done|]. split.
  - simpl. by rewrite Hkw.
  - split; [|done]. simpl in Ha. injection Ha as Ha.
    by rewrite <- (length_map skeleton_of xs), Ha, length_map.
Qed.

(** X19. [warmup_with_load] of a graph fails exactly where the runtime fails,
    and in the order of the source: on [flow.load]; else, when a device is
    given, on [runtime_state_dict_to]; else on [load_runtime_state_dict].
    When [flow.load] fails nothing is installed: the call ends in the world
    [flow.load] left, with that one event on the trace.  Without a device
    the state that was loaded is installed as it is. *)
Theorem warmup_fails_where_the_runtime_fails (g : UNetGraph) (file_path : string)
    (device : option Device) (st : state) :
  (forall e,
     fst (UNetGraph_warmup_with_load g file_path device st) = Raised e <->
     fst (flow_load file_path (st_world st)) = Raised e \/
     (exists sd w1 d,
        flow_load file_path (st_world st) = (Returned sd, w1) /\
        device = Some d /\
        fst (runtime_state_dict_to sd d w1) = Raised e) \/
     (exists sd w1 sd' w2,
        flow_load file_path (st_world st) = (Returned sd, w1) /\
        match device with
        | Some d => runtime_state_dict_to sd d w1 = (Returned sd', w2)
        | None => sd' = sd /\ w2 = w1
        end /\
        fst (load_runtime_state_dict (ug_handle g) sd' w2) = Raised e)) /\
  (forall e w1,
     flow_load file_path (st_world st) = (Raised e, w1) ->
     UNetGraph_warmup_with_load g file_path device st =
       (Raised e, {| st_world := w1; st_trace := st_trace st ++ [EvFlowLoad file_path] |})) /\
  (forall sd w1 r w2,
     device = None ->
     flow_load file_path (st_world st) = (Returned sd, w1) ->
     load_runtime_state_dict (ug_handle g) sd w1 = (r, w2) ->
     UNetGraph_warmup_with_load g file_path device st =
       (r, {| st_world := w2;
              st_trace := st_trace st ++ [EvFlowLoad file_path; EvLoadRuntimeStateDict] |})).
Proof.
  split_and!.
  - intros e. unfold UNetGraph_warmup_with_load, bind, external, ret.
    destruct (flow_load file_path (st_world st)) as [[sd|e1] w1] eqn:Hload; simpl.
    + destruct device as [d|]; simpl.
      * destruct (runtime_state_dict_to sd d w1) as [[sd'|e2] w2] eqn:Hto; simpl.
        -- destruct (load_runtime_state_dict (ug_handle g) sd' w2) as [r w3] eqn:Hinst.
           simpl. split.
           ++ intros ->. right. right. exists sd, w1, sd', w2.
              split; [done|]. split; [done|]. by rewrite Hinst.
           ++ intros [?|[(? & ? & ? & ? & ? & ?)|(? & ? & ? & ? & ? & ? & Hr)]];
                simplify_eq;
                do 4 (try (rewrite Hto in * ); try (rewrite Hinst in * );
                      simpl in *; simplify_eq); done.
        -- split.
           ++ intros [= <-]. right. left. exists sd, w1, d.
              split; [done|]. split; [done|]. by rewrite Hto.
           ++ intros [?|[(? & ? & ? & ? & ? & Hr)|(? & ? & ? & ? & ? & ? & ?)]];
                simplify_eq;
                do 4 (try (rewrite Hto in * ); try (rewrite Hinst in * );
                      simpl in *; simplify_eq); done.
      * destruct (load_runtime_state_dict (ug_handle g) sd w1) as [r w3] eqn:Hinst.
        simpl. split.
        -- intros ->. right. right. exists sd, w1, sd, w1.
           split; [done|]. split; [done|]. by rewrite Hinst.
        -- intros [?|[(? & ? & ? & ? & ? & ?)|(? & ? & ? & ? & ? & [? ?] & Hr)]];
             simplify_eq;
                do 4 (try (rewrite Hto in * ); try (rewrite Hinst in * );
                      simpl in *; simplify_eq); done.
    + split.
      * intros [= <-]. by left.
      * intros [?|[(? & ? & ? & ? & ? & ?)|(? & ? & ? & ? & ? & ? & ?)]];
          by simplify_eq.
  - intros e w1 Hload. unfold UNetGraph_warmup_with_load, bind, external.
    by rewrite Hload.
  - intros sd w1 r w2 -> Hload Hinst.
    unfold UNetGraph_warmup_with_load, bind, external, ret. rewrite Hload. simpl.
    rewrite Hinst. by rewrite <- app_assoc.
Qed.

Section SaveThenLoad.
(** The files of the runtime: a file that was saved loads as what was
    saved. *)
Hypothesis flow_load_saved :
  forall sd file_path w w',
    flow_save sd file_path w = (Returned (), w') ->
    flow_load file_path w' = (Returned sd, w').

(** X20. On a runtime whose files keep what was saved: after [save_graph] of a
    deployable module returned, [load_graph] of a deployable module, with no
    device, installs in its own graph the runtime state the first graph had
    when it was saved; [warmup_with_load] does the same. *)
Theorem save_then_load_installs_saved_state (self self' : DeplayableModule)
    (g g' : UNetGraph) (file_path : string) (st st1 : state) :
  dm_attrs self !! "_dpl_graph"%string = Some (AttrGraph g) ->
  dm_attrs self' !! "_dpl_graph"%string = Some (AttrGraph g') ->
  save_graph self file_path st = (Returned (), st1) ->
  exists sd,
    fst (runtime_state_dict (ug_handle g) (st_world st)) = Returned sd /\
    load_graph self' file_path None st1 =
      (fst (load_runtime_state_dict (ug_handle g') sd (st_world st1)),
       {| st_world := snd (load_runtime_state_dict (ug_handle g') sd (st_world st1));
          st_trace := st_trace st1 ++ [EvFlowLoad file_path; EvLoadRuntimeStateDict] |}) /\
    warmup_with_load self' file_path None st1 = load_graph self' file_path None st1.
Proof.
  intros Hg Hg' Hsave.
  unfold save_graph, get_dpl_graph, bind, lift in Hsave. rewrite Hg in Hsave.
  unfold UNetGraph_save_graph, bind, external in Hsave.
  destruct (runtime_state_dict (ug_handle g) (st_world st)) as [[sd|e] w1] eqn:Hsd;
    [|done].
  simpl in Hsave.
  destruct (flow_save sd file_path w1) as [[[]|e] w2] eqn:Hfs; [|done].
  injection Hsave as <-. simpl.
  apply flow_load_saved in Hfs.
  exists sd. split; [done|]. split; [|done].
  unfold load_graph, get_dpl_graph, bind, lift. rewrite Hg'.
  unfold UNetGraph_warmup_with_load, bind, external, ret. simpl. rewrite Hfs. simpl.
  destruct (load_runtime_state_dict (ug_handle g') sd w2) as [r w3]. simpl.
  by rewrite <- app_assoc.
Qed.
End SaveThenLoad.

(** X21. [oneflow_compile] in graph mode, when the conversion and the
    construction of the graph return: exactly one graph is constructed,
    with the size [options["size"]], or 9 when the options have no such
    key, around the converted module.  The module that is returned has
    the class of the converted module as base class, that graph as
    [_dpl_graph], whatever the converted module had under that name, and
    every other attribute of the converted module as it was. *)
Theorem oneflow_compile_binds_one_graph (torch_unet : TorchModule)
    (options : gmap string Z) (of_md : ConvertedModule World)
    (h : GraphHandle) (w1 : World) (st : state) :
  torch2of torch_unet = Returned of_md ->
  graph_init (default 9 (options !! "size"%string)) (st_world st) = (Returned h, w1) ->
  exists m,
    oneflow_compile torch_unet true options st =
      (Returned m,
       {| st_world := w1;
          st_trace := st_trace st ++ [EvGraphInit (default 9 (options !! "size"%string))] |}) /\
    dm_super m = md_class of_md /\
    dm_use_graph m = true /\
    get_dpl_graph m =
      Returned (AttrGraph {| ug_handle := h;
                             ug_size := default 9 (options !! "size"%string);
                             ug_unet := of_md |}) /\
    forall name, name <> "_dpl_graph"%string ->
      dm_attrs m !! name = AttrValue <$> md_attrs of_md !! name.
Proof.
  intros Hconv Hinit.
  exists {| dm_super := md_class of_md;
            dm_use_graph := true;
            dm_attrs :=
              <["_dpl_graph"%string :=
                  AttrGraph {| ug_handle := h;
                               ug_size := default 9 (options !! "size"%string);
                               ug_unet := of_md |}]> (AttrValue <$> md_attrs of_md) |}.
  split.
  - unfold oneflow_compile, bind, lift. rewrite Hconv.
    unfold get_unet_graph, bind, external, ret.
    change (match options !! "size"%string with Some size => size | None => 9 end)
      with (default 9 (options !! "size"%string)).
    cbv beta iota. rewrite Hinit. reflexivity.
  - split; [done|]. split; [done|]. split.
    + unfold get_dpl_graph. simpl. by rewrite lookup_insert.
    + intros name Hne. simpl. rewrite lookup_insert_ne by done.
      by rewrite lookup_fmap.
Qed.

(** X22. [oneflow_compile] fails in two ways only: when the conversion of
    the module fails, with its exception and before anything else happens,
    and, in graph mode, when the construction of the graph fails.  In eager
    mode the options are not looked at. *)
Theorem oneflow_compile_errors (torch_unet : TorchModule) (use_graph : bool)
    (options : gmap string Z) (st : state) :
  (forall e,
     fst (oneflow_compile torch_unet use_graph options st) = Raised e <->
     torch2of torch_unet = Raised e \/
     (use_graph = true /\
      is_Some (match torch2of torch_unet with Returned m => Some m | Raised _ => None end) /\
      fst (graph_init (default 9 (options !! "size"%string)) (st_world st)) = Raised e)) /\
  (forall e, torch2of torch_unet = Raised e ->
     oneflow_compile torch_unet use_graph options st = (Raised e, st)) /\
  (forall options',
     oneflow_compile torch_unet false options st
     = oneflow_compile torch_unet false options' st).
Proof.
  split_and!.
  - intros e. unfold oneflow_compile, bind, lift.
    destruct (torch2of torch_unet) as [of_md|e1] eqn:Hconv; simpl.
    + destruct use_graph; simpl.
      * unfold get_unet_graph, bind, external, ret.
        assert (Hsize : match options !! "size"%string with
                        | Some size => size | None => 9 end
                        = default 9 (options !! "size"%string))
          by (by destruct (options !! "size"%string)).
        rewrite Hsize.
        destruct (graph_init _ (st_world st)) as [[h|e2] w1]; simpl.
        -- split; [done|]. intros [?|(_ & _ & ?)]; done.
        -- split.
           ++ intros [= <-]. right. split; [done|]. split; [by eexists|done].
           ++ intros [?|(_ & _ & ?)]; by simplify_eq.
      * split; [done|]. intros [?|(? & _)]; done.
    + split.
      * intros [= <-]. by left.
      * intros [?|(_ & [? ?] & _)]; by simplify_eq.
  - intros e Hconv. unfold oneflow_compile, bind, lift. by rewrite Hconv.
  - intros options'. reflexivity.
Qed.

End CompileTraces.

(** ** The statements on the reference runtime *)

(** The conversions of the reference runtime obey the laws. *)
#[global] Instance ref_tensor_laws : TensorLaws.
Proof. constructor. intros t. exists t. split; reflexivity. Qed.

Lemma bridge_round_trip_witness :
  dynamic_only ref_structure = true /\
  exists S' st1 st2,
    process_input ([ref_structure], []) ref_state = (Returned (VTuple [S'], VDict []), st1) /\
    skeleton_of S' = skeleton_of ref_structure /\
    process_output S' st1 = (Returned ref_structure, st2) /\
    st_world st2 = st_world ref_state.
Proof.
  split; [reflexivity|].
  exact (bridge_round_trip ref_structure ref_state eq_refl).
Defined.


Lemma eager_module_has_no_graph_witness :
  exists m,
    oneflow_compile ref_torch_unet false ∅ ref_state = (Returned m, ref_state) /\
    dm_attrs m !! "_dpl_graph"%string = None /\
    save_graph m "unet.graph" ref_state = (Raised AttributeError, ref_state) /\
    load_graph m "unet.graph" None ref_state = (Raised AttributeError, ref_state) /\
    warmup_with_load m "unet.graph" (Some "cuda"%string) ref_state
      = (Raised AttributeError, ref_state).
Proof.
  destruct (eager_module_has_no_graph ref_torch_unet ∅ ref_module ref_state
              eq_refl eq_refl eq_refl)
    as (m & Hc & _ & Hattr & _ & Hsave & Hload & Hwarm).
  exists m. split_and!; auto.
Defined.

(** C5, as the specification states it, fails on the reference runtime: the
    wrapper is constructed and [save_graph] is called at once; the call
    returns, and the file holds the state of a graph that never ran.  No
    [InvalidStateError] is raised. *)
Lemma save_fresh_graph_returns :
  match ref_fresh_graph with
  | (Returned g, st1) =>
      fst (UNetGraph_save_graph g "unet.graph" st1) = Returned () /\
      fst (UNetGraph_save_graph g "unet.graph" st1) <> Raised (PyExn "InvalidStateError") /\
      rw_files (st_world (snd (UNetGraph_save_graph g "unet.graph" st1)))
        !! "unet.graph"%string = Some 0%nat /\
      st_trace (snd (UNetGraph_save_graph g "unet.graph" st1))
        = [EvGraphInit 9; EvRuntimeStateDict; EvFlowSave "unet.graph"]
  | (Raised _, _) => False
  end /\
  match oneflow_compile ref_torch_unet true ∅ ref_state with
  | (Returned m, st1) => fst (save_graph m "unet.graph" st1) = Returned ()
  | (Raised _, _) => False
  end.
Proof. vm_compute. split_and!; try reflexivity. discriminate. Qed.

Lemma missing_entry_point_returns_None_witness :
  exists m st1,
    oneflow_compile ref_torch_unet true ∅ ref_state = (Returned m, st1) /\
    cls_apply_model (dm_super m) = None /\
    apply_model m ([VTorch ref_input], []) st1 = (Returned VNone, st1).
Proof.
  eexists _, _. split; [reflexivity|]. split; [reflexivity|].
  apply missing_entry_point_returns_None. reflexivity.
Defined.

Lemma graph_mode_is_transparent_witness :
  exists m_graph m_eager st_graph st_eager,
    oneflow_compile ref_torch_unet true ∅ ref_state = (Returned m_graph, st_graph) /\
    oneflow_compile ref_torch_unet false ∅ ref_state = (Returned m_eager, st_eager) /\
    fst (call m_eager ([VTorch ref_input], []) st_eager)
      = Returned (VTorch {| rt_dtype := "int64"; rt_shape := [1; 3];
                            rt_data := [2; 4; 6] |}) /\
    close_outcome (close_value eq eq)
      (fst (call m_graph ([VTorch ref_input], []) st_graph))
      (fst (call m_eager ([VTorch ref_input], []) st_eager)).
Proof.
  eexists _, _, _, _. split; [reflexivity|]. split; [reflexivity|].
  split; [reflexivity|].
  eapply (graph_mode_is_transparent eq eq); [| reflexivity | reflexivity |].
  - intros t t' ->. reflexivity.
  - intros g forward a w w' Hg Hf.
    injection Hg as <-. injection Hf as <-.
    destruct a as [[|[t| | | | | ] ?] ?]; simpl; try reflexivity.
    constructor. reflexivity.
Defined.

Lemma save_graph_defers_to_runtime_witness :
  match ref_fresh_graph with
  | (Returned g, st1) =>
      exists w2,
        UNetGraph_save_graph g "unet.graph" st1 =
          (Returned (),
           {| st_world := w2;
              st_trace := st_trace st1 ++ [EvRuntimeStateDict; EvFlowSave "unet.graph"] |})
  | (Raised _, _) => False
  end.
Proof.
  destruct ref_fresh_graph as [[g|e] st1] eqn:Hfresh; [|discriminate Hfresh].
  injection Hfresh as <- <-.
  eexists.
  eapply (save_graph_defers_to_runtime _ "unet.graph" _); reflexivity.
Defined.

Lemma bridge_passes_other_leaves_through_witness :
  input_fn ref_flow_leaf ref_state = (Returned ref_flow_leaf, ref_state) /\
  output_fn ref_torch_leaf ref_state = (Returned ref_torch_leaf, ref_state) /\
  map_leaf output_fn ref_structure ref_state = (Returned ref_structure, ref_state).
Proof.
  destruct (bridge_passes_other_leaves_through ref_flow_leaf ref_state)
    as (Hin & _).
  destruct (bridge_passes_other_leaves_through ref_torch_leaf ref_state)
    as (_ & Hout & _).
  destruct (bridge_passes_other_leaves_through ref_structure ref_state)
    as (_ & _ & _ & _ & _ & _ & _ & Hid & _).
  split_and!; [apply Hin|apply Hout|apply Hid]; reflexivity.
Defined.

(** ** The further statements on concrete inputs *)

Section PipelineInstances.
Import Pipeline.
Import Img2Img.

Lemma auto_slice_is_half_the_head_witness :
  enable_attention_slicing 8 (Some (inl "auto"%string)) = Some (inr 4) /\
  enable_attention_slicing 8 (Some (inr 2)) = Some (inr 2) /\
  disable_attention_slicing 8 = None.
Proof.
  destruct (auto_slice_is_half_the_head 8) as (s & Hauto & _ & _ & _ & Hnum & _ & Hoff);
    [lia|].
  split; [reflexivity|]. split; [apply Hnum|apply Hoff].
Defined.

Lemma preprocess_passes_multiples_of_32_to_resize_witness :
  preprocess strict_library (600, 400) = lib_resize strict_library (576, 384) /\
  preprocess strict_library (600, 400) = Returned () /\
  preprocess strict_library (31, 64) = Raised ValueError.
Proof.
  destruct (preprocess_passes_multiples_of_32_to_resize strict_library 31 64)
    as (w' & h' & _ & _ & _ & _ & _ & _ & _ & _ & _ & _ & _ & Hraise).
  split; [reflexivity|]. split; [reflexivity|].
  apply Hraise; [|left; lia].
  intros size e. unfold strict_library. cbn [lib_resize].
  case_decide; split; try done.
  - by intros [= <-].
  - by intros [-> _].
  - intros [_ ?]. done.
Defined.

Lemma ref_library_returns : library_returns ref_library.
Proof. split; [by eexists|done]. Qed.


Lemma noise_timestep_counts_from_the_end_witness :
  noise_timesteps ref_scheduler 50 1 40 (rev (map (fun i => 20 * Z.of_nat i + 1) (seq 0 50)))
  = Returned [801].
Proof.
  destruct (noise_timestep_counts_from_the_end ref_scheduler 50 1 40
              (rev (map (fun i => 20 * Z.of_nat i + 1) (seq 0 50))))
    as (t & Hnoise & Ht); [reflexivity|split; by vm_compute|].
  vm_compute in Ht. injection Ht as <-. exact Hnoise.
Defined.

Lemma zero_strength_noises_to_first_timestep_witness :
  noise_timesteps {| sch_is_lms := false; sch_config := ∅ |} 5 2 0 [801; 601; 401; 201; 1]
  = Returned [801; 801].
Proof.
  apply (zero_strength_noises_to_first_timestep
           {| sch_is_lms := false; sch_config := ∅ |} 5 2 801 [601; 401; 201; 1]);
    [reflexivity|reflexivity|lia].
Defined.

Lemma reachable_cache_is_empty_witness :
  exists p,
    pipeline_call module_globals ref_library ref_scheduler (ref_request (512, 512))
      (snd (set_unet_graphs_cache_size 2 init)) = Some (Raised NameError, p) /\
    unet_graphs_cache_size p = 2 /\
    unet_graphs p = [] /\
    unet_graphs_lru_cache_time p = 0.
Proof.
  assert (Hcall : pipeline_call module_globals ref_library ref_scheduler
                    (ref_request (512, 512)) (snd (set_unet_graphs_cache_size 2 init))
                  = Some (Raised NameError, snd (set_unet_graphs_cache_size 2 init))).
  { by rewrite pipeline_call_module_globals, call_exception_ref. }
  destruct (reachable_cache_is_empty (snd (set_unet_graphs_cache_size 2 init)))
    as (Hd & Ht & _).
  { eapply reach_call; [apply (reach_set_size 2), reach_init|exact Hcall]. }
  eexists. split; [exact Hcall|]. split; [reflexivity|]. split; [exact Hd|exact Ht].
Defined.

End PipelineInstances.

Lemma call_runs_the_computation_once_witness :
  exists m st1 v st',
    oneflow_compile ref_torch_unet true ∅ ref_state = (Returned m, st1) /\
    call m ref_call_args st1 = (Returned v, st') /\
    dynamic_only v = true /\
    st_trace st'
    = [EvGraphInit 9; EvFromTorch; EvFromTorch; EvGraphCall; EvToTorch].
Proof.
  eexists _, _, _, _. split; [reflexivity|].
  lazymatch goal with
  | |- call ?m _ ?st1 = _ /\ _ => pose (self := m); pose (st0 := st1)
  end.
  split; [reflexivity|].
  lazymatch goal with
  | |- dynamic_only ?v = true /\ st_trace ?st' = _ =>
      destruct (call_runs_the_computation_once self ref_call_args ref_forward
                  st0 st' v eq_refl eq_refl) as (Hdyn & output & Hskel & Htrace)
  end.
  split; [exact Hdyn|reflexivity].
Defined.

Lemma apply_model_runs_the_graph_of_call_witness :
  exists m st1,
    oneflow_compile ref_ldm_torch_unet true ∅ ref_state = (Returned m, st1) /\
    apply_model m ref_call_args st1 = call m ref_call_args st1 /\
    fst (call m ref_call_args st1)
    = Returned (VTorch {| rt_dtype := "int64"; rt_shape := [1; 3];
                          rt_data := [2; 4; 6] |}).
Proof.
  eexists _, _. split; [reflexivity|]. split; [|reflexivity].
  apply apply_model_runs_the_graph_of_call; [reflexivity|by eexists|by eexists].
Defined.

Lemma failed_conversion_stops_the_call_witness :
  fst (@call picky_tensors picky_runtime picky_module ([picky_input], []) picky_state)
    = Raised TypeError /\
  st_trace (snd (@call picky_tensors picky_runtime picky_module ([picky_input], [])
                   picky_state))
    = [EvFromTorch].
Proof.
  destruct (@failed_conversion_stops_the_call picky_tensors picky_runtime picky_module
              ([picky_input], []) (fun _ w => (Returned (@VNone picky_tensors), w))
              picky_state TypeError eq_refl eq_refl) as (Hraise & _ & _).
  split; [exact Hraise|reflexivity].
Defined.

Lemma mapped_arguments_unpack_witness :
  exists mapped_args mapped_kwargs st' xs kw,
    process_input ref_call_args ref_state = (Returned (mapped_args, mapped_kwargs), st') /\
    unpack_call mapped_args mapped_kwargs = Returned (xs, kw) /\
    length xs = 2%nat /\
    map fst kw = ["encoder_hidden_states"%string].
Proof.
  destruct (mapped_arguments_unpack ref_call_args ref_state _ _ _ eq_refl)
    as (xs & kw & Hargs & Hunpack & Hlen & Hkeys).
  eexists _, _, _, xs, kw. split; [reflexivity|].
  split; [exact Hunpack|]. split; [exact Hlen|exact Hkeys].
Defined.

Lemma ref_flow_load_saved (sd : nat) (file_path : string) (w w' : ref_world) :
  ref_flow_save sd file_path w = (Returned (), w') ->
  ref_flow_load file_path w' = (Returned sd, w').
Proof.
  unfold ref_flow_save, ref_flow_load. intros [= <-]. simpl.
  by rewrite lookup_insert_eq.
Qed.

Lemma save_then_load_installs_saved_state_witness :
  exists m st0 st1 st2,
    oneflow_compile ref_torch_unet true ∅ ref_state = (Returned m, st0) /\
    save_graph m "unet.graph" st0 = (Returned (), st1) /\
    load_graph m "unet.graph" None st1 = (Returned (), st2) /\
    warmup_with_load m "unet.graph" None st1 = load_graph m "unet.graph" None st1 /\
    rw_graphs (st_world st2) = [0%nat].
Proof.
  eexists _, _, _, _. split; [reflexivity|].
  lazymatch goal with
  | |- save_graph ?m _ ?st = _ /\ _ => pose (self := m); pose (st0 := st)
  end.
  split; [reflexivity|].
  lazymatch goal with
  | |- load_graph _ _ _ ?st1 = _ /\ _ =>
      destruct (@save_then_load_installs_saved_state ref_tensors ref_runtime
                  ref_flow_load_saved self self
                  _ _ "unet.graph" st0 st1 eq_refl eq_refl eq_refl)
        as (sd & Hsd & Hload & Hwarm)
  end.
  split; [reflexivity|]. split; [exact Hwarm|reflexivity].
Defined.

Lemma oneflow_compile_binds_one_graph_witness :
  exists m st1,
    oneflow_compile ref_ldm_torch_unet true {["size"%string := 3]} ref_state
      = (Returned m, st1) /\
    st_trace st1 = [EvGraphInit 3] /\
    get_dpl_graph m
      = Returned (AttrGraph {| ug_handle := 0%nat; ug_size := 3; ug_unet := ref_ldm_module |}) /\
    dm_attrs m !! "dtype"%string = Some (AttrValue (VAtom (AStr "float16"))).
Proof.
  destruct (oneflow_compile_binds_one_graph ref_ldm_torch_unet {["size"%string := 3]}
              ref_ldm_module 0%nat _ ref_state eq_refl eq_refl)
    as (m & Hc & _ & _ & Hgraph & Hattrs).
  exists m. eexists. split; [exact Hc|]. split; [reflexivity|].
  split; [exact Hgraph|]. rewrite Hattrs by done. reflexivity.
Defined.
